(** * Bid-win analytics pipeline: ingestion, aggregation and merge

    A shallow embedding of [analytics_interview.py]:
    - [parse_and_insert] reads the lines of one input unit, normalises each
      line into a ten-field document and writes the documents to the raw
      collection in batches;
    - [aggregate_and_upsert] groups the raw collection by the composite key
      (campaignId, creativeId, adgroupId, geo, time) and upserts one bucket
      per key into the aggregate collection.

    Python values are an inductive type, dictionaries are association lists
    in insertion order, exceptions are an error monad, and the two
    collections are explicit states threaded through the functions. *)

From Stdlib Require Import List String Ascii ZArith Bool Lia SpecFloat Permutation.
Import ListNotations.
Local Open Scope string_scope.
Local Open Scope list_scope.
Local Open Scope Z_scope.
Set Warnings "-register-all".

(** ** Python values *)

(** A Python [float] is an IEEE 754 binary64 number. *)
Definition float := spec_float.

Definition prec : Z := 53.
Definition emax : Z := 1024.

Definition float_zero : float := S754_zero false.

(** The values [json.loads] can return, which are also the values the
    documents hold. A dict keeps its items in insertion order. *)
Inductive pyval : Type :=
| PNone
| PBool (b : bool)
| PInt (z : Z)
| PFloat (f : float)
| PStr (s : string)
| PList (l : list pyval)
| PDict (d : list (string * pyval)).

Definition dict := list (string * pyval).

Lemma float_eq_dec (x y : float) : {x = y} + {x <> y}.
Proof.
  unfold float.
  decide equality; auto using Bool.bool_dec, Pos.eq_dec, Z.eq_dec.
Defined.

Fixpoint pyval_eq_dec (x y : pyval) {struct x} : {x = y} + {x <> y}.
Proof.
  decide equality.
  - apply Bool.bool_dec.
  - apply Z.eq_dec.
  - apply float_eq_dec.
  - apply string_dec.
  - apply (list_eq_dec pyval_eq_dec).
  - apply list_eq_dec. decide equality. apply string_dec.
Defined.

Fixpoint dict_lookup (k : string) (d : dict) : option pyval :=
  match d with
  | [] => None
  | (k', v) :: rest => if String.eqb k k' then Some v else dict_lookup k rest
  end.

(** [d[k] = v]: an existing key keeps its place, a new key goes last. *)
Fixpoint dict_set (k : string) (v : pyval) (d : dict) : dict :=
  match d with
  | [] => [(k, v)]
  | (k', v') :: rest =>
      if String.eqb k k' then (k', v) :: rest else (k', v') :: dict_set k v rest
  end.

Definition keys (d : dict) : list string := map fst d.

(** Truth value of an object, as [if time] tests it. *)
Definition truthy (v : pyval) : bool :=
  match v with
  | PNone => false
  | PBool b => b
  | PInt z => negb (z =? 0)
  | PFloat (S754_zero _) => false
  | PFloat _ => true
  | PStr s => negb (String.eqb s "")
  | PList l => match l with [] => false | _ => true end
  | PDict d => match d with [] => false | _ => true end
  end.

(** [v == s] for a string literal [s]: only an equal [str] compares equal. *)
Definition eq_str (v : pyval) (s : string) : bool :=
  match v with
  | PStr s' => String.eqb s' s
  | _ => false
  end.

(** [s.replace(old, "")] for a non-empty [old]: every occurrence of [old],
    scanning left to right without overlap, is removed. [skip] counts the
    characters of a matched occurrence still to be dropped. *)
Fixpoint remove_all_from (old : string) (skip : nat) (s : string) : string :=
  match s with
  | EmptyString => EmptyString
  | String c rest =>
      match skip with
      | S n => remove_all_from old n rest
      | O =>
          if String.prefix old s
          then remove_all_from old (String.length old - 1) rest
          else String c (remove_all_from old O rest)
      end
  end.

Definition str_remove (old s : string) : string := remove_all_from old O s.

(** ** Exceptions *)

Inductive exn : Type :=
| JSONDecodeError
| AttributeError
| TypeError
| ValueError.

Inductive result (A : Type) : Type :=
| Ok (a : A)
| Raise (e : exn).

Arguments Ok {A} a.
Arguments Raise {A} e.

Definition bind {A B : Type} (m : result A) (k : A -> result B) : result B :=
  match m with
  | Ok a => k a
  | Raise e => Raise e
  end.

Notation "x <- m ;; k" := (bind m (fun x => k))
  (at level 61, m at next level, right associativity).

(** ** The library calls the program makes

    [json.loads], [float] and [datetime.strptime(..).timestamp()] belong to
    the Python runtime. The program is embedded over any implementation of
    them; [None] stands for the exception the call raises
    ([JSONDecodeError] for [json_loads], [ValueError] for the other two). A
    reference implementation for ASCII input is given further down and is
    used to run the program on concrete lines. *)
Class Runtime : Type := {
  json_loads : string -> option pyval;
  float_of_str : string -> option float;
  strptime_timestamp : string -> string -> option Z
}.

(** ** parse_and_insert *)

Section Ingestion.
Context {R : Runtime}.

(** [v.get(k, default)]: only a dict has [get]. *)
Definition py_get (v : pyval) (k : string) (default : pyval) : result pyval :=
  match v with
  | PDict d =>
      match dict_lookup k d with
      | Some x => Ok x
      | None => Ok default
      end
  | _ => Raise AttributeError
  end.

(** [json.loads(v)]: a value that is not a string is a [TypeError]. *)
Definition loads (v : pyval) : result pyval :=
  match v with
  | PStr s =>
      match json_loads s with
      | Some x => Ok x
      | None => Raise JSONDecodeError
      end
  | _ => Raise TypeError
  end.

(** [v.get(a, {}).get(b, {}).get(c, default)] *)
Definition get3 (v : pyval) (a b c : string) (default : pyval) : result pyval :=
  x <- py_get v a (PDict []) ;;
  y <- py_get x b (PDict []) ;;
  py_get y c default.

(** Lines 35-45: the country, or the geo criteria id when the country is
    the string [Others]. *)
Definition resolve_geo (bid_request_string : pyval) : result pyval :=
  geo <- get3 bid_request_string "device" "geo" "country" (PStr "Others") ;;
  if eq_str geo "Others"
  then get3 bid_request_string "device" "ext" "geo_criteria_id" (PStr "Others")
  else Ok geo.

(** Line 47: [float(data.get("winPrice", "0").replace("USD/1M", ""))] *)
Definition parse_price (data : pyval) : result float :=
  w <- py_get data "winPrice" (PStr "0") ;;
  match w with
  | PStr s =>
      match float_of_str (str_remove "USD/1M" s) with
      | Some f => Ok f
      | None => Raise ValueError
      end
  | _ => Raise AttributeError
  end.

Definition timestamp_format : string := "%Y-%m-%dT%H:%M:%S.%fZ".

(** Lines 48-53: [get] without a default gives [None]; a false value gives
    0; [strptime] of a value that is not a string is a [TypeError]. *)
Definition parse_time (bid_request_string : pyval) : result Z :=
  time <- py_get bid_request_string "timestamp" PNone ;;
  if truthy time then
    match time with
    | PStr s =>
        match strptime_timestamp s timestamp_format with
        | Some t => Ok t
        | None => Raise ValueError
        end
    | _ => Raise TypeError
    end
  else Ok 0.

(** Line 31: [json.loads(data.get("bidRequestString", "{}"))] *)
Definition nested_document (data : pyval) : result pyval :=
  s <- py_get data "bidRequestString" (PStr "{}") ;;
  loads s.

(** Lines 24-67: the body of the [try], up to the document. *)
Definition normalize (line : string) : result dict :=
  data <- loads (PStr line) ;;
  auction_id <- py_get data "auctionId" (PStr "NA") ;;
  campaign_id <- py_get data "biddingMainAccount" (PStr "NA") ;;
  creative_id <- py_get data "bidResponseCreativeName" (PStr "NA") ;;
  adgroup_id <- py_get data "biddingSubAccount" (PStr "NA") ;;
  bid_request_string <- nested_document data ;;
  user_agent <- py_get bid_request_string "userAgent" (PStr "Others") ;;
  site <- py_get bid_request_string "url" (PStr "Others") ;;
  geo <- resolve_geo bid_request_string ;;
  exchange <- py_get bid_request_string "exchange" (PStr "Others") ;;
  price <- parse_price data ;;
  time <- parse_time bid_request_string ;;
  Ok [ ("auctionId", auction_id);
       ("campaignId", campaign_id);
       ("creativeId", creative_id);
       ("adgroupId", adgroup_id);
       ("userAgent", user_agent);
       ("site", site);
       ("geo", geo);
       ("exchange", exchange);
       ("price", PFloat price);
       ("time", PInt time) ].

(** The raw collection, as the sequence of [insert_many] calls it has
    received; its contents are the documents of all calls. *)
Definition raw_collection := list (list dict).

Definition insert_many (documents : list dict) (c : raw_collection)
  : raw_collection :=
  c ++ [documents].

Definition contents (c : raw_collection) : list dict := List.concat c.

(** Lines 22-75: the loop over the lines. The state is the collection and
    the buffer [documents]. A [JSONDecodeError] skips the line, any other
    exception leaves the loop and the function. After the last line the
    loop just ends. *)
Fixpoint ingest (batch_size : Z) (lines : list string)
    (documents : list dict) (c : raw_collection)
  : raw_collection * list dict * result unit :=
  match lines with
  | [] => (c, documents, Ok tt)
  | line :: rest =>
      match normalize line with
      | Ok document =>
          let documents' := documents ++ [document] in
          if batch_size <=? Z.of_nat (List.length documents')
          then ingest batch_size rest [] (insert_many documents' c)
          else ingest batch_size rest documents' c
      | Raise JSONDecodeError => ingest batch_size rest documents c
      | Raise e => (c, documents, Raise e)
      end
  end.

(** [parse_and_insert(file_path, collection, batch_size)]: the file is
    given by its lines; the result is the collection afterwards and whether
    the call returned or raised. The buffer is local and is lost. *)
Definition parse_and_insert (lines : list string) (collection : raw_collection)
    (batch_size : Z) : raw_collection * result unit :=
  let '(c, _, r) := ingest batch_size lines [] collection in (c, r).

End Ingestion.

(** ** The collections as the aggregation stage reads them *)

(** A document of the raw collection with its ten fields. *)
Record NormalizedWinRecord : Type := {
  auctionId : pyval;
  campaignId : pyval;
  creativeId : pyval;
  adgroupId : pyval;
  userAgent : pyval;
  site : pyval;
  geo : pyval;
  exchange : pyval;
  price : float;
  time : Z
}.

(** Reading a stored document back: all ten keys are needed, the price a
    float and the time an int. *)
Definition field (k : string) (d : dict) {A : Type}
    (f : pyval -> option A) : option A :=
  match dict_lookup k d with
  | Some v => f v
  | None => None
  end.

Definition as_record (d : dict) : option NormalizedWinRecord :=
  field "auctionId" d (fun a =>
  field "campaignId" d (fun c =>
  field "creativeId" d (fun cr =>
  field "adgroupId" d (fun ag =>
  field "userAgent" d (fun ua =>
  field "site" d (fun s =>
  field "geo" d (fun g =>
  field "exchange" d (fun e =>
  field "price" d (fun p =>
  field "time" d (fun t =>
    match p, t with
    | PFloat p, PInt t =>
        Some {| auctionId := a; campaignId := c; creativeId := cr;
                adgroupId := ag; userAgent := ua; site := s; geo := g;
                exchange := e; price := p; time := t |}
    | _, _ => None
    end)))))))))).

(** The composite key (campaignId, creativeId, adgroupId, geo, time). *)
Definition composite_key : Type := pyval * pyval * pyval * pyval * Z.

Lemma key_eq_dec (a b : composite_key) : {a = b} + {a <> b}.
Proof.
  unfold composite_key.
  decide equality; [apply Z.eq_dec|].
  decide equality; [apply pyval_eq_dec|].
  decide equality; [apply pyval_eq_dec|].
  decide equality; apply pyval_eq_dec.
Defined.

Arguments key_eq_dec : simpl never.

Definition key_eqb (a b : composite_key) : bool :=
  if key_eq_dec a b then true else false.

(** [group_key] of the pipeline: the [_id] of the [$group] stage. *)
Definition group_key (d : NormalizedWinRecord) : composite_key :=
  (campaignId d, creativeId d, adgroupId d, geo d, time d).

Arguments group_key : simpl never.

(** A document of the aggregate collection, and of the pipeline's result
    after [$project] has moved the fields of [_id] to the top level. *)
Record AggregateBucket : Type := {
  bucket_key : composite_key;
  totalPrice : float;
  minPrice : float;
  maxPrice : float;
  totalCount : Z
}.

(** *** The accumulators of the [$group] stage *)

Definition float_add : float -> float -> float := SFadd prec emax.

(** The order of the store on doubles: NaN below every number, the two
    zeros equal. *)
Definition float_leb (x y : float) : bool :=
  match x, y with
  | S754_nan, _ => true
  | _, S754_nan => false
  | _, _ => SFleb x y
  end.

Definition float_min (a b : float) : float := if float_leb a b then a else b.
Definition float_max (a b : float) : float := if float_leb b a then a else b.

(** [$sum], [$min] and [$max] over the prices of one group, in the order the
    documents were read. The sum adds doubles from left to right, each
    addition rounded to the nearest double. *)
Definition price_sum (ps : list float) : float := fold_left float_add ps float_zero.

Definition price_min (ps : list float) : float :=
  match ps with
  | [] => float_zero
  | p :: rest => fold_left float_min rest p
  end.

Definition price_max (ps : list float) : float :=
  match ps with
  | [] => float_zero
  | p :: rest => fold_left float_max rest p
  end.

(** *** Equality of keys in the [$group] stage *)

(** The store compares numbers by value, whatever their type: the int 7 and
    the double 7.0 are one key, the two zeros are equal and NaN is equal to
    itself; values of other types are equal when they are the same, arrays
    and documents member by member. [store_value] takes a value to a normal
    form, so that two values are equal for the store exactly when their
    normal forms are the same: a double with an integer value becomes that
    integer, any other finite double gets an odd mantissa. *)
Fixpoint odd_part (m : positive) : positive * Z :=
  match m with
  | xO p => let '(q, t) := odd_part p in (q, t + 1)
  | _ => (m, 0)
  end.

Definition number_form (f : float) : pyval :=
  match f with
  | S754_zero _ => PInt 0
  | S754_finite s m e =>
      let '(q, t) := odd_part m in
      if 0 <=? e + t
      then PInt ((if s then -1 else 1) * (Zpos q * 2 ^ (e + t)))
      else PFloat (S754_finite s q (e + t))
  | _ => PFloat f
  end.

Fixpoint store_value (v : pyval) : pyval :=
  match v with
  | PFloat f => number_form f
  | PList l => PList (map store_value l)
  | PDict d => PDict (map (fun kv => (fst kv, store_value (snd kv))) d)
  | _ => v
  end.

Definition store_key (k : composite_key) : composite_key :=
  let '(c, cr, ag, g, t) := k in
  (store_value c, store_value cr, store_value ag, store_value g, t).

(** Two keys are one key for the [$group] stage. *)
Definition same_key (a b : composite_key) : bool :=
  key_eqb (store_key a) (store_key b).

(** *** The pipeline *)

(** The [$group] stage keeps one group per key: a document joins the group
    whose key equals its own for the store, or opens a new group under its
    own key. The groups are listed here in order of first appearance; the
    store promises no order for its reply. *)
Fixpoint group_insert (k : composite_key) (p : float)
    (groups : list (composite_key * list float))
  : list (composite_key * list float) :=
  match groups with
  | [] => [(k, [p])]
  | (k', ps) :: rest =>
      if same_key k' k then (k', ps ++ [p]) :: rest
      else (k', ps) :: group_insert k p rest
  end.

Definition group_stage (source : list NormalizedWinRecord)
  : list (composite_key * list float) :=
  fold_left (fun groups d => group_insert (group_key d) (price d) groups)
            source [].

Definition bucket_of (g : composite_key * list float) : AggregateBucket :=
  {| bucket_key := fst g;
     totalPrice := price_sum (snd g);
     minPrice := price_min (snd g);
     maxPrice := price_max (snd g);
     totalCount := Z.of_nat (List.length (snd g)) |}.

(** [source_collection.aggregate(pipeline)] *)
Definition aggregate (source : list NormalizedWinRecord) : list AggregateBucket :=
  map bucket_of (group_stage source).

(** *** The bulk upsert *)

Record SetFields : Type := {
  set_totalPrice : float;
  set_minPrice : float;
  set_maxPrice : float;
  set_totalCount : Z
}.

(** [UpdateOne(filter_query, {"$set": ..}, upsert=..)] *)
Record UpdateOne : Type := {
  filter_query : composite_key;
  update_query : SetFields;
  upsert : bool
}.

Definition apply_set (s : SetFields) (d : AggregateBucket) : AggregateBucket :=
  {| bucket_key := bucket_key d;
     totalPrice := set_totalPrice s;
     minPrice := set_minPrice s;
     maxPrice := set_maxPrice s;
     totalCount := set_totalCount s |}.

(** The document an upsert inserts: the filter's fields and the set fields. *)
Definition inserted (k : composite_key) (s : SetFields) : AggregateBucket :=
  {| bucket_key := k;
     totalPrice := set_totalPrice s;
     minPrice := set_minPrice s;
     maxPrice := set_maxPrice s;
     totalCount := set_totalCount s |}.

(** The first document matching the filter is updated; [None] when no
    document matches. *)
Fixpoint update_first (k : composite_key) (s : SetFields)
    (c : list AggregateBucket) : option (list AggregateBucket) :=
  match c with
  | [] => None
  | d :: rest =>
      if key_eq_dec (bucket_key d) k then Some (apply_set s d :: rest)
      else option_map (cons d) (update_first k s rest)
  end.

Definition update_one (op : UpdateOne) (c : list AggregateBucket)
  : list AggregateBucket :=
  match update_first (filter_query op) (update_query op) c with
  | Some c' => c'
  | None =>
      if upsert op then c ++ [inserted (filter_query op) (update_query op)]
      else c
  end.

(** [target_collection.bulk_write(ops)]: the operations in order. *)
Definition bulk_write (ops : list UpdateOne) (c : list AggregateBucket)
  : list AggregateBucket :=
  fold_left (fun c op => update_one op c) ops c.

(** Lines 123-141: one [UpdateOne] per document of the result. *)
Definition upsert_of (doc : AggregateBucket) : UpdateOne :=
  {| filter_query := bucket_key doc;
     update_query := {| set_totalPrice := totalPrice doc;
                        set_minPrice := minPrice doc;
                        set_maxPrice := maxPrice doc;
                        set_totalCount := totalCount doc |};
     upsert := true |}.

(** Lines 121-144: the operations built from the result, written in one
    bulk call; nothing is written for an empty result. *)
Definition merge (result : list AggregateBucket) (target : list AggregateBucket)
  : list AggregateBucket :=
  let bulk_operations := map upsert_of result in
  match bulk_operations with
  | [] => target
  | _ :: _ => bulk_write bulk_operations target
  end.

(** [aggregate_and_upsert(source_collection, target_collection)]: the
    aggregate collection afterwards. *)
Definition aggregate_and_upsert (source : list NormalizedWinRecord)
    (target : list AggregateBucket) : list AggregateBucket :=
  let result := aggregate source in
  merge result target.

(** ** The script *)

Section Script.
Context {R : Runtime}.

(** The default of [batch_size] in the signature of [parse_and_insert]. *)
Definition default_batch_size : Z := 1000.

(** Lines 169-170: every file in turn into the same collection, with the
    default batch size; an exception ends the loop and the script. *)
Fixpoint ingest_files (files : list (list string)) (c : raw_collection)
  : raw_collection * result unit :=
  match files with
  | [] => (c, Ok tt)
  | file :: rest =>
      match parse_and_insert file c default_batch_size with
      | (c', Ok _) => ingest_files rest c'
      | (c', Raise e) => (c', Raise e)
      end
  end.

(** The raw collection as the aggregation reads it: its documents, as
    records. *)
Definition stored_records (c : raw_collection) : list NormalizedWinRecord :=
  flat_map (fun d => match as_record d with
                     | Some r => [r]
                     | None => []
                     end)
           (contents c).

(** Lines 168-172: the files are ingested and the raw collection is
    aggregated into the aggregate collection. The result is the two
    collections and whether the script got that far. *)
Definition main (files : list (list string)) (individual_wins : raw_collection)
    (geo_aggregation : list AggregateBucket)
  : raw_collection * list AggregateBucket * result unit :=
  match ingest_files files individual_wins with
  | (c, Ok _) =>
      (c, aggregate_and_upsert (stored_records c) geo_aggregation, Ok tt)
  | (c, Raise e) => (c, geo_aggregation, Raise e)
  end.

End Script.

(** ** A reference runtime

    The three library calls for ASCII input, after CPython's [json] decoder,
    [float] and [datetime]. Numbers are rounded to the nearest binary64
    value, ties to even; the local time zone is UTC. *)

Module Reference.

Definition quote_char : ascii := ascii_of_nat 34.

Definition code (c : ascii) : Z := Z.of_nat (nat_of_ascii c).

Definition is_digit (c : ascii) : bool := (48 <=? code c) && (code c <=? 57).

Definition digit_val (c : ascii) : Z := code c - 48.

(** The value of a run of digits, most significant first. *)
Definition digits_val (ds : list ascii) : Z :=
  fold_left (fun acc c => 10 * acc + digit_val c) ds 0.

Fixpoint span_digits (s : list ascii) : list ascii * list ascii :=
  match s with
  | c :: rest =>
      if is_digit c then let '(ds, r) := span_digits rest in (c :: ds, r)
      else ([], s)
  | [] => ([], [])
  end.

(** *** Decimal to binary64 *)

(** The double nearest to [m * 10 ^ e], for [m >= 0], with sign [neg]. With
    [l] the binary logarithm of [m], [10 ^ lo <= m < 10 ^ hi]; the first two
    tests only cut short what the rounding would give, for exponents far
    out of range. *)
Definition decimal_to_float (neg : bool) (m e : Z) : float :=
  match m with
  | Z0 => S754_zero neg
  | Zpos p =>
      let l := Z.log2 m in
      let lo := l * 30102 / 100000 in
      let hi := (l + 1) * 30103 / 100000 + 1 in
      if 309 <=? lo + e then S754_infinity neg
      else if hi + e <=? -324 then S754_zero neg
      else if 0 <=? e then binary_round prec emax neg (Z.to_pos (m * 10 ^ e)) 0
      else
        let '(q, e', l) := SFdiv_core_binary prec emax m 0 (10 ^ (- e)) 0 in
        binary_round_aux prec emax neg q e' l
  | Zneg _ => S754_nan
  end.

Definition float_of_Z (z : Z) : float := binary_normalize prec emax z 0 false.

(** An exponent part [e], [e+] or [e-] followed by digits, when there is
    one; nothing is consumed otherwise. *)
Definition exponent_part (s : list ascii) : option (Z * list ascii) :=
  match s with
  | c :: rest =>
      if (code c =? 101) || (code c =? 69) then
        let '(neg, rest') :=
          match rest with
          | sg :: r =>
              if code sg =? 45 then (true, r)
              else if code sg =? 43 then (false, r)
              else (false, rest)
          | [] => (false, rest)
          end in
        match span_digits rest' with
        | ([], _) => None
        | (ds, r) => Some ((if neg then - digits_val ds else digits_val ds), r)
        end
      else None
  | [] => None
  end.

(** *** float(s) *)

(** Whitespace as [float] strips it: tab to carriage return, the four
    separators 28 to 31, and the space. *)
Definition is_space (c : ascii) : bool :=
  ((9 <=? code c) && (code c <=? 13)) || ((28 <=? code c) && (code c <=? 32)).

Fixpoint lstrip (s : list ascii) : list ascii :=
  match s with
  | c :: rest => if is_space c then lstrip rest else s
  | [] => []
  end.

Definition strip (s : list ascii) : list ascii := rev (lstrip (rev (lstrip s))).

(** Underscores may stand between two digits only; they are dropped. *)
Fixpoint drop_underscores (prev : ascii) (s : list ascii) : option (list ascii) :=
  match s with
  | [] => if code prev =? 95 then None else Some []
  | c :: rest =>
      if code c =? 95 then
        if is_digit prev then drop_underscores c rest else None
      else if (code prev =? 95) && negb (is_digit c) then None
      else option_map (cons c) (drop_underscores c rest)
  end.

Definition lower (c : ascii) : ascii :=
  if (65 <=? code c) && (code c <=? 90) then ascii_of_nat (nat_of_ascii c + 32) else c.

Definition lower_string (s : list ascii) : string :=
  string_of_list_ascii (map lower s).

Definition float_of_chars (s : list ascii) : option float :=
  match drop_underscores zero (strip s) with
  | None => None
  | Some t =>
      let '(neg, body) :=
        match t with
        | c :: r =>
            if code c =? 45 then (true, r)
            else if code c =? 43 then (false, r)
            else (false, t)
        | [] => (false, t)
        end in
      let word := lower_string body in
      if String.eqb word "inf" || String.eqb word "infinity"
      then Some (S754_infinity neg)
      else if String.eqb word "nan" then Some S754_nan
      else
        let '(ip, r1) := span_digits body in
        let '(fp, r2) :=
          match r1 with
          | c :: r => if code c =? 46 then span_digits r else ([], r1)
          | [] => ([], r1)
          end in
        match ip ++ fp with
        | [] => None
        | ds =>
            let '(e, r3) :=
              match exponent_part r2 with
              | Some er => er
              | None => (0, r2)
              end in
            match r3 with
            | [] =>
                Some (decimal_to_float neg (digits_val ds)
                                       (e - Z.of_nat (List.length fp)))
            | _ :: _ => None
            end
        end
  end.

Definition float_of_str (s : string) : option float :=
  float_of_chars (list_ascii_of_string s).

(** *** json.loads *)

Definition is_json_space (c : ascii) : bool :=
  (code c =? 32) || (code c =? 9) || (code c =? 10) || (code c =? 13).

Fixpoint skip_ws (s : list ascii) : list ascii :=
  match s with
  | c :: rest => if is_json_space c then skip_ws rest else s
  | [] => []
  end.

Definition hex_val (c : ascii) : option Z :=
  let n := code c in
  if is_digit c then Some (n - 48)
  else if (97 <=? n) && (n <=? 102) then Some (n - 87)
  else if (65 <=? n) && (n <=? 70) then Some (n - 55)
  else None.

Definition hex4 (a b c d : ascii) : option Z :=
  match hex_val a, hex_val b, hex_val c, hex_val d with
  | Some x, Some y, Some z, Some w => Some (((x * 16 + y) * 16 + z) * 16 + w)
  | _, _, _, _ => None
  end.

Definition byte (n : Z) : ascii := ascii_of_nat (Z.to_nat n).

(** The UTF-8 bytes of a code point. *)
Definition utf8 (cp : Z) : list ascii :=
  if cp <? 128 then [byte cp]
  else if cp <? 2048 then [byte (192 + cp / 64); byte (128 + cp mod 64)]
  else if cp <? 65536 then
    [byte (224 + cp / 4096); byte (128 + (cp / 64) mod 64); byte (128 + cp mod 64)]
  else
    [byte (240 + cp / 262144); byte (128 + (cp / 4096) mod 64);
     byte (128 + (cp / 64) mod 64); byte (128 + cp mod 64)].

Definition simple_escape (c : ascii) : option ascii :=
  let n := code c in
  if (n =? 34) || (n =? 92) || (n =? 47) then Some c
  else if n =? 98 then Some (byte 8)
  else if n =? 102 then Some (byte 12)
  else if n =? 110 then Some (byte 10)
  else if n =? 114 then Some (byte 13)
  else if n =? 116 then Some (byte 9)
  else None.

Definition prepend (cs : list ascii) (r : option (list ascii * list ascii))
  : option (list ascii * list ascii) :=
  match r with
  | Some (body, rest) => Some (cs ++ body, rest)
  | None => None
  end.

(** The body of a string literal after its opening quote, and what follows
    the closing quote. Control characters are refused; a high surrogate
    followed by a low one is one code point. *)
Fixpoint scan_string (s : list ascii) : option (list ascii * list ascii) :=
  match s with
  | [] => None
  | c :: rest =>
      if code c =? 34 then Some ([], rest)
      else if code c <? 32 then None
      else if code c =? 92 then
        match rest with
        | [] => None
        | e :: r =>
            if code e =? 117 then
              match r with
              | a :: b :: c1 :: d :: r1 =>
                  match hex4 a b c1 d with
                  | None => None
                  | Some hi =>
                      match r1 with
                      | bs :: u :: a2 :: b2 :: c2 :: d2 :: r2 =>
                          if (55296 <=? hi) && (hi <=? 56319)
                             && (code bs =? 92) && (code u =? 117)
                          then
                            match hex4 a2 b2 c2 d2 with
                            | None => None
                            | Some lo =>
                                if (56320 <=? lo) && (lo <=? 57343)
                                then prepend
                                       (utf8 (65536 + (hi - 55296) * 1024 + (lo - 56320)))
                                       (scan_string r2)
                                else prepend (utf8 hi) (scan_string r1)
                            end
                          else prepend (utf8 hi) (scan_string r1)
                      | _ => prepend (utf8 hi) (scan_string r1)
                      end
                  end
              | _ => None
              end
            else
              match simple_escape e with
              | Some x => prepend [x] (scan_string r)
              | None => None
              end
        end
      else prepend [c] (scan_string rest)
  end.

(** A number: an int without fraction and exponent, a float otherwise. *)
Definition scan_number (s : list ascii) : option (pyval * list ascii) :=
  let '(neg, s1) :=
    match s with
    | c :: r => if code c =? 45 then (true, r) else (false, s)
    | [] => (false, s)
    end in
  match s1 with
  | [] => None
  | c :: r =>
      if is_digit c then
        let '(ip, r1) := if code c =? 48 then ([c], r) else span_digits s1 in
        let '(fp, r2) :=
          match r1 with
          | d :: r' =>
              if code d =? 46 then
                match span_digits r' with
                | ([], _) => ([], r1)
                | found => found
                end
              else ([], r1)
          | [] => ([], r1)
          end in
        match fp, exponent_part r2 with
        | [], None =>
            Some (PInt (if neg then - digits_val ip else digits_val ip), r2)
        | _, Some (e, r3) =>
            Some (PFloat (decimal_to_float neg (digits_val (ip ++ fp))
                                           (e - Z.of_nat (List.length fp))), r3)
        | _ :: _, None =>
            Some (PFloat (decimal_to_float neg (digits_val (ip ++ fp))
                                           (- Z.of_nat (List.length fp))), r2)
        end
      else None
  end.

Fixpoint strip_prefix (p : list ascii) (s : list ascii) : option (list ascii) :=
  match p, s with
  | [], _ => Some s
  | a :: p', b :: s' => if Ascii.eqb a b then strip_prefix p' s' else None
  | _ :: _, [] => None
  end.

Definition literal (word : string) (v : pyval) (s : list ascii)
  : option (pyval * list ascii) :=
  option_map (pair v) (strip_prefix (list_ascii_of_string word) s).

Definition or_else {A : Type} (a b : option A) : option A :=
  match a with
  | Some _ => a
  | None => b
  end.

(** The scanner, with [fuel] bounding the depth of the calls. An object
    with a repeated key keeps the last value. *)
Fixpoint scan_value (fuel : nat) (s : list ascii) {struct fuel}
  : option (pyval * list ascii) :=
  match fuel with
  | O => None
  | S fuel' =>
      match s with
      | [] => None
      | c :: rest =>
          if code c =? 34 then
            match scan_string rest with
            | Some (body, r) => Some (PStr (string_of_list_ascii body), r)
            | None => None
            end
          else if code c =? 123 then
            match skip_ws rest with
            | c2 :: r2 =>
                if code c2 =? 125 then Some (PDict [], r2)
                else scan_members fuel' (skip_ws rest) []
            | [] => None
            end
          else if code c =? 91 then
            match skip_ws rest with
            | c2 :: r2 =>
                if code c2 =? 93 then Some (PList [], r2)
                else scan_elements fuel' (skip_ws rest) []
            | [] => None
            end
          else
            or_else (literal "null" PNone s)
           (or_else (literal "true" (PBool true) s)
           (or_else (literal "false" (PBool false) s)
           (or_else (scan_number s)
           (or_else (literal "NaN" (PFloat S754_nan) s)
           (or_else (literal "Infinity" (PFloat (S754_infinity false)) s)
                    (literal "-Infinity" (PFloat (S754_infinity true)) s))))))
      end
  end
with scan_elements (fuel : nat) (s : list ascii) (acc : list pyval) {struct fuel}
  : option (pyval * list ascii) :=
  match fuel with
  | O => None
  | S fuel' =>
      match scan_value fuel' s with
      | None => None
      | Some (v, r) =>
          match skip_ws r with
          | c :: r' =>
              if code c =? 44 then scan_elements fuel' (skip_ws r') (acc ++ [v])
              else if code c =? 93 then Some (PList (acc ++ [v]), r')
              else None
          | [] => None
          end
      end
  end
with scan_members (fuel : nat) (s : list ascii) (acc : dict) {struct fuel}
  : option (pyval * list ascii) :=
  match fuel with
  | O => None
  | S fuel' =>
      match s with
      | q :: r =>
          if code q =? 34 then
            match scan_string r with
            | None => None
            | Some (k, r1) =>
                match skip_ws r1 with
                | c :: r2 =>
                    if code c =? 58 then
                      match scan_value fuel' (skip_ws r2) with
                      | None => None
                      | Some (v, r3) =>
                          let acc' := dict_set (string_of_list_ascii k) v acc in
                          match skip_ws r3 with
                          | c' :: r4 =>
                              if code c' =? 44
                              then scan_members fuel' (skip_ws r4) acc'
                              else if code c' =? 125 then Some (PDict acc', r4)
                              else None
                          | [] => None
                          end
                      end
                    else None
                | [] => None
                end
            end
          else None
      | [] => None
      end
  end.

Definition json_loads (s : string) : option pyval :=
  let cs := list_ascii_of_string s in
  match scan_value (2 * List.length cs + 2) (skip_ws cs) with
  | Some (v, r) =>
      match skip_ws r with
      | [] => Some v
      | _ :: _ => None
      end
  | None => None
  end.

(** *** datetime.strptime(s, format).timestamp() *)

Definition is_leap (y : Z) : bool :=
  ((y mod 4 =? 0) && negb (y mod 100 =? 0)) || (y mod 400 =? 0).

Definition days_in_month (y m : Z) : Z :=
  if m =? 2 then (if is_leap y then 29 else 28)
  else if (m =? 4) || (m =? 6) || (m =? 9) || (m =? 11) then 30
  else 31.

(** Days from 1970-01-01 to the given date of the Gregorian calendar. *)
Definition days_from_civil (y m d : Z) : Z :=
  let y' := if m <=? 2 then y - 1 else y in
  let era := y' / 400 in
  let yoe := y' - era * 400 in
  let mp := (m + 9) mod 12 in
  let doy := (153 * mp + 2) / 5 + d - 1 in
  let doe := yoe * 365 + yoe / 4 - yoe / 100 + doy in
  era * 146097 + doe - 719468.

(** A separator of the format, matched without regard to case. *)
Definition expect (c : ascii) (s : list ascii) : option (list ascii) :=
  match s with
  | x :: rest => if Ascii.eqb (lower x) (lower c) then Some rest else None
  | [] => None
  end.

(** A numeric field of one or two digits with a value from [lo] to [hi]. *)
Definition field2 (lo hi : Z) (s : list ascii) : option (Z * list ascii) :=
  let '(ds, rest) := span_digits s in
  let v := digits_val ds in
  if ((List.length ds =? 1)%nat || (List.length ds =? 2)%nat)
     && (lo <=? v) && (v <=? hi)
  then Some (v, rest) else None.

(** The day also matches as a space and one digit from 1 to 9. *)
Definition day_field (s : list ascii) : option (Z * list ascii) :=
  match s with
  | c :: rest =>
      if code c =? 32 then
        match span_digits rest with
        | ([d], r) => if 1 <=? digit_val d then Some (digit_val d, r) else None
        | _ => None
        end
      else field2 1 31 s
  | [] => None
  end.

(** [int(x)] for a float: the integer part, towards zero. *)
Definition float_trunc (f : float) : Z :=
  match f with
  | S754_finite s m e =>
      let v := if 0 <=? e then Zpos m * 2 ^ e else Zpos m / 2 ^ (- e) in
      if s then - v else v
  | _ => 0
  end.

(** [int(seconds + microsecond / 1e6)], computed on floats as Python does. *)
Definition epoch_seconds (seconds us : Z) : Z :=
  float_trunc
    (SFadd prec emax (float_of_Z seconds)
           (SFdiv prec emax (float_of_Z us) (float_of_Z 1000000))).

Definition parse_iso (s : list ascii) : option Z :=
  match s with
  | y1 :: y2 :: y3 :: y4 :: r0 =>
      if is_digit y1 && is_digit y2 && is_digit y3 && is_digit y4 then
        let year := digits_val [y1; y2; y3; y4] in
        match expect "-" r0 with None => None | Some r1 =>
        match field2 1 12 r1 with None => None | Some (month, r2) =>
        match expect "-" r2 with None => None | Some r3 =>
        match day_field r3 with None => None | Some (day, r4) =>
        match expect "T" r4 with None => None | Some r5 =>
        match field2 0 23 r5 with None => None | Some (hour, r6) =>
        match expect ":" r6 with None => None | Some r7 =>
        match field2 0 59 r7 with None => None | Some (minute, r8) =>
        match expect ":" r8 with None => None | Some r9 =>
        match field2 0 61 r9 with None => None | Some (second, r10) =>
        match expect "." r10 with None => None | Some r11 =>
        let '(fs, r12) := span_digits r11 in
        match expect "Z" r12 with
        | Some [] =>
            let n := List.length fs in
            if ((1 <=? n)%nat && (n <=? 6)%nat)
               && (1 <=? year) && (day <=? days_in_month year month)
               && (second <=? 59)
               && negb ((year =? 1) && (month =? 1) && (day =? 1))
            then
              let us := digits_val fs * 10 ^ (6 - Z.of_nat n) in
              Some (epoch_seconds
                      (days_from_civil year month day * 86400
                       + hour * 3600 + minute * 60 + second) us)
            else None
        | _ => None
        end end end end end end end end end end end end
      else None
  | _ => None
  end.

(** Only the format of the program is implemented. The date must be valid,
    the second below 60, and the day after 0001-01-01, since the conversion
    to a timestamp looks one day back. *)
Definition strptime_timestamp (s format : string) : option Z :=
  if String.eqb format "%Y-%m-%dT%H:%M:%S.%fZ"
  then parse_iso (list_ascii_of_string s)
  else None.

End Reference.

(** The reference runtime as an instance. *)
Definition reference : Runtime :=
  {| json_loads := Reference.json_loads;
     float_of_str := Reference.float_of_str;
     strptime_timestamp := Reference.strptime_timestamp |}.

(** Input lines are written with an apostrophe where the line has a double
    quote. *)
Definition quoted (s : string) : string :=
  string_of_list_ascii
    (map (fun c => if Ascii.eqb c "'"%char then Reference.quote_char else c)
         (list_ascii_of_string s)).

(** * The vocabulary of the statements *)

Section Vocabulary.
Context {R : Runtime}.

Definition ten_keys : list string :=
  [ "auctionId"; "campaignId"; "creativeId"; "adgroupId"; "userAgent";
    "site"; "geo"; "exchange"; "price"; "time" ].

(** A document with exactly the ten fields, a float price and an int time:
    one that reads back as a record. *)
Definition wellformed (doc : dict) : Prop :=
  keys doc = ten_keys /\ exists r, as_record doc = Some r.

(** The document of a line in which every field the program reads is
    absent. *)
Definition default_document : dict :=
  [ ("auctionId", PStr "NA"); ("campaignId", PStr "NA");
    ("creativeId", PStr "NA"); ("adgroupId", PStr "NA");
    ("userAgent", PStr "Others"); ("site", PStr "Others");
    ("geo", PStr "Others"); ("exchange", PStr "Others");
    ("price", PFloat float_zero); ("time", PInt 0) ].

(** The second definition of the geo field, following the words of the
    specification: a lookup along a path of keys yields a value only when
    every key on the path is present. *)
Definition lookup3 (v : pyval) (a b c : string) : option pyval :=
  match v with
  | PDict d =>
      match dict_lookup a d with
      | Some (PDict x) =>
          match dict_lookup b x with
          | Some (PDict y) => dict_lookup c y
          | _ => None
          end
      | _ => None
      end
  | _ => None
  end.

Definition criteria_or_others (nested : pyval) : pyval :=
  match lookup3 nested "device" "ext" "geo_criteria_id" with
  | Some g => g
  | None => PStr "Others"
  end.

Definition geo_fallback (nested : pyval) : pyval :=
  match lookup3 nested "device" "geo" "country" with
  | Some country =>
      if eq_str country "Others" then criteria_or_others nested else country
  | None => criteria_or_others nested
  end.

(** A line whose envelope and nested document are objects, whose geo
    resolves, and whose win price is a string that is not a number once
    every USD/1M is removed. *)
Definition unparseable_price (line : string) : Prop :=
  exists d n g w,
    json_loads line = Some (PDict d) /\
    nested_document (PDict d) = Ok (PDict n) /\
    resolve_geo (PDict n) = Ok g /\
    dict_lookup "winPrice" d = Some (PStr w) /\
    float_of_str (str_remove "USD/1M" w) = None.

(** The same with a price that parses and a timestamp that is a non-empty
    string not in the format. *)
Definition unparseable_timestamp (line : string) : Prop :=
  exists d n g p t,
    json_loads line = Some (PDict d) /\
    nested_document (PDict d) = Ok (PDict n) /\
    resolve_geo (PDict n) = Ok g /\
    parse_price (PDict d) = Ok p /\
    dict_lookup "timestamp" n = Some (PStr t) /\
    t <> "" /\
    strptime_timestamp t timestamp_format = None.

(** A line of the wider class: the envelope is an object and the win price
    is a string that is not a number once every USD/1M is removed. *)
Definition malformed_price (line : string) : Prop :=
  exists d w,
    json_loads line = Some (PDict d) /\
    dict_lookup "winPrice" d = Some (PStr w) /\
    float_of_str (str_remove "USD/1M" w) = None.

(** The nested document of the line decodes, to whatever value, or its
    decoding raises something other than a decoding error. *)
Definition nested_decodes (line : string) : Prop :=
  forall d,
    json_loads line = Some (PDict d) ->
    nested_document (PDict d) <> Raise JSONDecodeError.

(** The envelope is an object, the nested document is an object, and its
    timestamp is a string, not empty, that is not in the format. *)
Definition malformed_timestamp (line : string) : Prop :=
  exists d n t,
    json_loads line = Some (PDict d) /\
    nested_document (PDict d) = Ok (PDict n) /\
    dict_lookup "timestamp" n = Some (PStr t) /\
    t <> "" /\
    strptime_timestamp t timestamp_format = None.

End Vocabulary.

(** The prices of the documents whose key is the key [k] for the store, in
    the order of the collection. *)
Definition prices_of (k : composite_key) (source : list NormalizedWinRecord)
  : list float :=
  map price (filter (fun d => same_key (group_key d) k) source).

(** The prices collected so far for key [k]. *)
Fixpoint group_prices (k : composite_key)
    (groups : list (composite_key * list float)) : list float :=
  match groups with
  | [] => []
  | (k', ps) :: rest => if same_key k' k then ps else group_prices k rest
  end.

(** One of the keys [ks] is the key [k] for the store. *)
Definition known (k : composite_key) (ks : list composite_key) : bool :=
  existsb (fun k' => same_key k' k) ks.

(** A float's place in the order, as a triple compared lexicographically. *)
Definition float_rank (f : float) : Z * Z * Z :=
  match f with
  | S754_nan => (-3, 0, 0)
  | S754_infinity true => (-2, 0, 0)
  | S754_finite true m e => (-1, - e, - Zpos m)
  | S754_zero _ => (0, 0, 0)
  | S754_finite false m e => (1, e, Zpos m)
  | S754_infinity false => (2, 0, 0)
  end.

Definition lex_le (a b : Z * Z * Z) : Prop :=
  let '(a1, a2, a3) := a in
  let '(b1, b2, b3) := b in
  a1 < b1 \/ (a1 = b1 /\ (a2 < b2 \/ (a2 = b2 /\ a3 <= b3))).

(** The documents of the aggregate collection with key [k]. *)
Definition records_for (k : composite_key) (c : list AggregateBucket)
  : list AggregateBucket :=
  filter (fun d => key_eqb (bucket_key d) k) c.

(** The first document with the key of [op] already holds the values that
    [op] sets. *)
Fixpoint settled (op : UpdateOne) (c : list AggregateBucket) : Prop :=
  match c with
  | [] => False
  | d :: rest =>
      if key_eq_dec (bucket_key d) (filter_query op)
      then apply_set (update_query op) d = d
      else settled op rest
  end.

(** The three documents of the example, two keys and the prices 10, 30
    and 5. *)
Definition example_key (campaign : string) : composite_key :=
  (PStr campaign, PStr "cr", PStr "ag", PStr "VN", 1484096370).

Definition example_record (campaign : string) (p : Z) : NormalizedWinRecord :=
  {| auctionId := PStr "a"; campaignId := PStr campaign; creativeId := PStr "cr";
     adgroupId := PStr "ag"; userAgent := PStr "Others"; site := PStr "Others";
     geo := PStr "VN"; exchange := PStr "Others";
     price := Reference.float_of_Z p; time := 1484096370 |}.


Definition example_bucket (campaign : string) (total lo hi count : Z)
  : AggregateBucket :=
  {| bucket_key := example_key campaign;
     totalPrice := Reference.float_of_Z total;
     minPrice := Reference.float_of_Z lo;
     maxPrice := Reference.float_of_Z hi;
     totalCount := count |}.


(** Concrete lines for the runs below. *)
Definition line_empty : string := quoted "{}".

Definition line_undecodable : string := "{oops".

Definition line_country : string :=
  quoted "{'auctionId': 'a1', 'winPrice': '12.5USD/1M', 'bidRequestString': '{\'device\': {\'geo\': {\'country\': \'VN\'}, \'ext\': 5}}'}".

Definition line_empty_nested : string := quoted "{'bidRequestString': ''}".

Definition line_undecodable_nested : string :=
  quoted "{'bidRequestString': '{oops'}".

Definition line_bad_price : string := quoted "{'winPrice': 'abcUSD/1M'}".

Definition line_bad_price_undecodable_nested : string :=
  quoted "{'winPrice': 'abcUSD/1M', 'bidRequestString': '{oops'}".

Definition line_bad_price_array_nested : string :=
  quoted "{'winPrice': 'abcUSD/1M', 'bidRequestString': '[]'}".

Definition line_bad_timestamp : string :=
  quoted "{'bidRequestString': '{\'timestamp\': \'yesterday\'}'}".

(** ** More vocabulary *)

Section MoreVocabulary.
Context {R : Runtime}.

(** The documents of the lines of a unit, in order, up to the first line
    that raises something other than a decoding error. *)
Fixpoint documents_of (lines : list string) : list dict :=
  match lines with
  | [] => []
  | line :: rest =>
      match normalize line with
      | Ok d => d :: documents_of rest
      | Raise JSONDecodeError => documents_of rest
      | Raise _ => []
      end
  end.

(** The first exception of a unit that is not a decoding error, if any. *)
Fixpoint outcome_of (lines : list string) : result unit :=
  match lines with
  | [] => Ok tt
  | line :: rest =>
      match normalize line with
      | Ok _ => outcome_of rest
      | Raise JSONDecodeError => outcome_of rest
      | Raise e => Raise e
      end
  end.

End MoreVocabulary.

(** The value under a key, or a default when the key is absent. *)
Definition get_or (d : dict) (k : string) (default : pyval) : pyval :=
  match dict_lookup k d with
  | Some v => v
  | None => default
  end.

Definition is_dict (v : pyval) : bool :=
  match v with
  | PDict _ => true
  | _ => false
  end.

Definition is_str (v : pyval) : bool :=
  match v with
  | PStr _ => true
  | _ => false
  end.

(** The character [c] occurs in [s]. *)
Fixpoint occurs (c : ascii) (s : string) : bool :=
  match s with
  | EmptyString => false
  | String x rest => Ascii.eqb x c || occurs c rest
  end.

Definition total_count (buckets : list AggregateBucket) : Z :=
  fold_right (fun b acc => totalCount b + acc) 0 buckets.

(** The keys of [ks] that are not in [seen], each once, in order. *)
Fixpoint new_keys (seen ks : list composite_key) : list composite_key :=
  match ks with
  | [] => []
  | k :: rest =>
      if in_dec key_eq_dec k seen then new_keys seen rest
      else k :: new_keys (seen ++ [k]) rest
  end.

(** More concrete lines. *)
Definition line_array : string := "[1, 2]".

Definition line_object_request : string :=
  quoted "{'bidRequestString': {'url': 'u'}}".

Definition line_array_request : string := quoted "{'bidRequestString': '[]'}".

Definition line_numeric_price : string := quoted "{'winPrice': 12.5}".

Definition line_unit_inside : string := quoted "{'winPrice': '12USD/1M5'}".

Definition line_null_fields : string :=
  quoted "{'auctionId': null, 'biddingMainAccount': 7}".

Definition line_empty_timestamp : string :=
  quoted "{'bidRequestString': '{\'timestamp\': \'\'}'}".

Definition line_numeric_timestamp : string :=
  quoted "{'bidRequestString': '{\'timestamp\': 1484096370}'}".

Definition line_null_device : string :=
  quoted "{'bidRequestString': '{\'device\': null}'}".

Definition line_geo_number : string :=
  quoted "{'bidRequestString': '{\'device\': {\'geo\': 5}}'}".

Definition line_ext_number : string :=
  quoted "{'bidRequestString': '{\'device\': {\'ext\': 5}}'}".

(** * Properties of the ingestion *)

Section IngestionFacts.
Context {R : Runtime}.

Lemma ingest_skip (B : Z) (line : string) (rest : list string)
    (docs : list dict) (c : raw_collection) :
  normalize line = Raise JSONDecodeError ->
  ingest B (line :: rest) docs c = ingest B rest docs c.
Proof. intros H. simpl. now rewrite H. Qed.

Lemma ingest_abort (B : Z) (line : string) (rest : list string)
    (docs : list dict) (c : raw_collection) (e : exn) :
  normalize line = Raise e -> e <> JSONDecodeError ->
  ingest B (line :: rest) docs c = (c, docs, Raise e).
Proof.
  intros H Hne. simpl. rewrite H.
  destruct e; try reflexivity. congruence.
Qed.

(** Processing a prefix and then the rest is processing the whole, unless
    the prefix raised. *)
Lemma ingest_app (B : Z) (pre post : list string) :
  forall docs c,
    ingest B (pre ++ post) docs c =
    match ingest B pre docs c with
    | (c1, d1, Ok _) => ingest B post d1 c1
    | (c1, d1, Raise e) => (c1, d1, Raise e)
    end.
Proof.
  induction pre as [|line pre IH]; intros docs c; simpl.
  - reflexivity.
  - destruct (normalize line) as [doc|e].
    + destruct (B <=? _); apply IH.
    + destruct e; try reflexivity. apply IH.
Qed.

Lemma ingest_skip_middle (B : Z) (pre post : list string) (line : string)
    (docs : list dict) (c : raw_collection) :
  normalize line = Raise JSONDecodeError ->
  ingest B (pre ++ line :: post) docs c = ingest B (pre ++ post) docs c.
Proof.
  intros H. rewrite !ingest_app.
  destruct (ingest B pre docs c) as [[c1 d1] [u|e]]; [|reflexivity].
  now apply ingest_skip.
Qed.

Lemma ingest_abort_middle (B : Z) (pre post : list string) (line : string)
    (docs d1 : list dict) (c c1 : raw_collection) (e : exn) :
  normalize line = Raise e -> e <> JSONDecodeError ->
  ingest B pre docs c = (c1, d1, Ok tt) ->
  ingest B (pre ++ line :: post) docs c = (c1, d1, Raise e).
Proof.
  intros H Hne Hpre. rewrite ingest_app, Hpre. now apply ingest_abort.
Qed.

Lemma normalize_undecodable (line : string) :
  json_loads line = None -> normalize line = Raise JSONDecodeError.
Proof. intros H. unfold normalize, loads. now rewrite H. Qed.

(** What [normalize] does on a line that decodes to an object. *)
Lemma normalize_object (line : string) (d : dict) :
  json_loads line = Some (PDict d) ->
  normalize line =
  (let data := PDict d in
   auction_id <- py_get data "auctionId" (PStr "NA") ;;
   campaign_id <- py_get data "biddingMainAccount" (PStr "NA") ;;
   creative_id <- py_get data "bidResponseCreativeName" (PStr "NA") ;;
   adgroup_id <- py_get data "biddingSubAccount" (PStr "NA") ;;
   bid_request_string <- nested_document data ;;
   user_agent <- py_get bid_request_string "userAgent" (PStr "Others") ;;
   site <- py_get bid_request_string "url" (PStr "Others") ;;
   geo <- resolve_geo bid_request_string ;;
   exchange <- py_get bid_request_string "exchange" (PStr "Others") ;;
   price <- parse_price data ;;
   time <- parse_time bid_request_string ;;
   Ok [ ("auctionId", auction_id); ("campaignId", campaign_id);
        ("creativeId", creative_id); ("adgroupId", adgroup_id);
        ("userAgent", user_agent); ("site", site); ("geo", geo);
        ("exchange", exchange); ("price", PFloat price);
        ("time", PInt time) ]).
Proof. intros H. unfold normalize, loads. now rewrite H. Qed.

Lemma py_get_dict (d : dict) (k : string) (default : pyval) :
  exists v, py_get (PDict d) k default = Ok v.
Proof. unfold py_get. destruct (dict_lookup k d); eauto. Qed.

End IngestionFacts.

(** ** Batching *)

Section Batching.
Context {R : Runtime}.

(** On lines that all normalise, with a batch size of at least one, the
    loop writes the buffered documents in full batches and ends with the
    remainder still in the buffer. *)
Lemma ingest_valid_lines (B : Z) (lines : list string) (ds : list dict) :
  1 <= B ->
  Forall2 (fun line d => normalize line = Ok d) lines ds ->
  forall buf c,
    Z.of_nat (List.length buf) < B ->
    exists chunks rest,
      ingest B lines buf c = (c ++ chunks, rest, Ok tt) /\
      List.concat chunks ++ rest = buf ++ ds /\
      Forall (fun b => Z.of_nat (List.length b) = B) chunks /\
      Z.of_nat (List.length rest) < B.
Proof.
  intros HB Hall. induction Hall as [|line d lines ds Hd _ IH]; intros buf c Hbuf.
  - exists [], buf. simpl. rewrite !app_nil_r. auto.
  - simpl. rewrite Hd.
    assert (Hlen : Z.of_nat (List.length (buf ++ [d])) = Z.of_nat (List.length buf) + 1).
    { rewrite length_app. simpl. lia. }
    destruct (B <=? Z.of_nat (List.length (buf ++ [d]))) eqn:Hfull.
    + apply Z.leb_le in Hfull.
      destruct (IH [] (insert_many (buf ++ [d]) c)) as (chunks & rest & Hrun & Hcat & Hsz & Hrest).
      { simpl. lia. }
      exists ((buf ++ [d]) :: chunks), rest. repeat split.
      * rewrite Hrun. unfold insert_many. now rewrite <- app_assoc.
      * simpl. rewrite <- !app_assoc. simpl in Hcat. rewrite Hcat. reflexivity.
      * constructor; [lia | assumption].
      * assumption.
    + apply Z.leb_gt in Hfull.
      destruct (IH (buf ++ [d]) c) as (chunks & rest & Hrun & Hcat & Hsz & Hrest).
      { lia. }
      exists chunks, rest. repeat split; try assumption.
      rewrite Hcat. now rewrite <- app_assoc.
Qed.

Lemma length_concat_uniform {A : Type} (n : Z) (chunks : list (list A)) :
  Forall (fun b => Z.of_nat (List.length b) = n) chunks ->
  Z.of_nat (List.length (List.concat chunks)) = n * Z.of_nat (List.length chunks).
Proof.
  induction 1 as [|b chunks Hb _ IH]; simpl.
  - lia.
  - rewrite length_app. lia.
Qed.

End Batching.

(** ** Normalisation *)

Section Normalisation.
Context {R : Runtime}.

Ltac step H :=
  match type of H with
  | bind ?m _ = Ok _ =>
      let a := fresh "v" in
      let Ha := fresh "Hv" in
      destruct m as [a|] eqn:Ha; simpl in H; [|discriminate H]
  end.

Lemma normalize_wellformed (line : string) (doc : dict) :
  normalize line = Ok doc -> wellformed doc.
Proof.
  unfold normalize. intros H.
  do 12 step H. injection H as <-.
  split; [reflexivity|]. eexists. reflexivity.
Qed.

(** Whatever predicate holds of every normalised document holds of every
    document the loop writes or buffers. *)
Lemma ingest_preserves (P : dict -> Prop) (B : Z) :
  (forall line doc, normalize line = Ok doc -> P doc) ->
  forall lines docs c,
    Forall P docs -> Forall (Forall P) c ->
    Forall (Forall P) (fst (fst (ingest B lines docs c))) /\
    Forall P (snd (fst (ingest B lines docs c))).
Proof.
  intros HP. induction lines as [|line lines IH]; intros docs c Hd Hc; simpl.
  - auto.
  - destruct (normalize line) as [doc|e] eqn:Hn.
    + assert (Hd' : Forall P (docs ++ [doc])).
      { apply Forall_app. split; [assumption|]. constructor; eauto. }
      destruct (B <=? _).
      * apply IH; [constructor|]. unfold insert_many.
        apply Forall_app. split; [assumption|]. constructor; auto.
      * apply IH; assumption.
    + destruct e; simpl; auto.
Qed.

Lemma get3_lookup3 (v : pyval) (a b c : string) (default x : pyval) :
  get3 v a b c default = Ok x ->
  x = match lookup3 v a b c with Some y => y | None => default end.
Proof.
  unfold get3, lookup3, py_get. destruct v; simpl; try discriminate.
  destruct (dict_lookup a d) as [[]|]; simpl; try discriminate.
  - match goal with |- context [dict_lookup b ?x] =>
      destruct (dict_lookup b x) as [[]|]; simpl; try discriminate end.
    + match goal with |- context [dict_lookup c ?y] =>
        destruct (dict_lookup c y); simpl; congruence end.
    + congruence.
  - congruence.
Qed.

Lemma resolve_geo_fallback (nested g : pyval) :
  resolve_geo nested = Ok g -> g = geo_fallback nested.
Proof.
  unfold resolve_geo, geo_fallback, criteria_or_others. intros H.
  destruct (get3 nested "device" "geo" "country" (PStr "Others")) as [c|] eqn:Hc;
    simpl in H; [|discriminate].
  apply get3_lookup3 in Hc.
  destruct (lookup3 nested "device" "geo" "country") as [country|]; subst c.
  - destruct (eq_str country "Others").
    + now apply get3_lookup3 in H.
    + congruence.
  - simpl in H. now apply get3_lookup3 in H.
Qed.

Lemma lookup3_get3 (v : pyval) (a b c : string) (default x : pyval) :
  lookup3 v a b c = Some x -> get3 v a b c default = Ok x.
Proof.
  unfold get3, lookup3, py_get. destruct v; simpl; try discriminate.
  destruct (dict_lookup a d) as [[]|]; simpl; try discriminate.
  match goal with |- context [dict_lookup b ?x] =>
    destruct (dict_lookup b x) as [[]|]; simpl; try discriminate end.
  intros ->. reflexivity.
Qed.

(** C5: on every line that yields a document, the geo field is the one the
    two-step fallback describes: the country when that lookup yields a value
    other than the string Others, and otherwise, exactly when the country is
    absent or is Others, the geo criteria id, or Others when that is absent
    too. The second lookup is made when the first gives Others and only
    then: with another value the result is that value whatever the second
    lookup would do, and with Others the result is that of the second
    lookup. *)
Theorem geo_is_two_step_fallback (line : string) (doc : dict) :
  normalize line = Ok doc ->
  (exists data nested,
      json_loads line = Some data /\
      nested_document data = Ok nested /\
      dict_lookup "geo" doc = Some (geo_fallback nested)) /\
  (forall nested country,
      lookup3 nested "device" "geo" "country" = Some country ->
      eq_str country "Others" = false ->
      resolve_geo nested = Ok country /\ geo_fallback nested = country) /\
  (forall nested first,
      get3 nested "device" "geo" "country" (PStr "Others") = Ok first ->
      eq_str first "Others" = true ->
      resolve_geo nested
      = get3 nested "device" "ext" "geo_criteria_id" (PStr "Others")).
Proof.
  intros H. split; [|split].
  - unfold normalize in H.
    step H. exists v. do 4 step H. step H. exists v4.
    do 2 step H. step H. do 3 step H. injection H as <-.
    apply resolve_geo_fallback in Hv7. subst v7.
    unfold loads in Hv. destruct (json_loads line); [|discriminate].
    injection Hv as ->. auto.
  - intros nested country Hc Hne. split.
    + unfold resolve_geo.
      rewrite (lookup3_get3 _ _ _ _ _ _ Hc). simpl. now rewrite Hne.
    + unfold geo_fallback. now rewrite Hc, Hne.
  - intros nested first Hfirst Heq. unfold resolve_geo.
    rewrite Hfirst. simpl. now rewrite Heq.
Qed.

(** C6: a document that results from a line has the ten keys, each with a
    value, a float price and an int time; when every field the program
    reads is absent the values are the defaults; and the raw collection
    only ever receives such documents. *)
Theorem every_field_is_populated :
  (forall line doc,
      normalize line = Ok doc ->
      keys doc = ten_keys /\
      (forall k, In k ten_keys -> exists v, dict_lookup k doc = Some v) /\
      (exists r, as_record doc = Some r)) /\
  (forall line d,
      json_loads line = Some (PDict d) ->
      dict_lookup "auctionId" d = None ->
      dict_lookup "biddingMainAccount" d = None ->
      dict_lookup "bidResponseCreativeName" d = None ->
      dict_lookup "biddingSubAccount" d = None ->
      dict_lookup "bidRequestString" d = None ->
      dict_lookup "winPrice" d = None ->
      json_loads "{}" = Some (PDict []) ->
      float_of_str "0" = Some float_zero ->
      normalize line = Ok default_document) /\
  (forall lines c B c' st,
      parse_and_insert lines c B = (c', st) ->
      Forall wellformed (contents c) ->
      Forall wellformed (contents c')).
Proof.
  split; [|split].
  - intros line doc H. unfold normalize in H.
    do 12 step H. injection H as <-.
    split; [reflexivity|]. split; [|eexists; reflexivity].
    intros k Hk. simpl in Hk.
    repeat (destruct Hk as [<-|Hk]; [eexists; reflexivity|]).
    contradiction.
  - intros line d Hl Ha Hc Hcr Had Hb Hw Hempty Hzero.
    rewrite (normalize_object _ _ Hl).
    unfold nested_document, parse_price, py_get.
    rewrite Ha, Hc, Hcr, Had, Hb, Hw. simpl.
    rewrite Hempty. simpl.
    change (str_remove "USD/1M" "0") with "0". rewrite Hzero. reflexivity.
  - intros lines c B c' st H Hc. unfold parse_and_insert in H.
    destruct (ingest B lines [] c) as [[c1 d1] r] eqn:Hrun.
    injection H as <- <-.
    unfold contents in *. apply Forall_concat. apply Forall_concat in Hc.
    pose proof (ingest_preserves wellformed B normalize_wellformed
                  lines [] c (Forall_nil _) Hc) as [Hc1 _].
    now rewrite Hrun in Hc1.
Qed.

End Normalisation.

(** ** Lines that fail *)

Section Failures.
Context {R : Runtime}.

(** Resolves each [get] on a dict that the goal evaluates. *)
Ltac gets :=
  repeat match goal with
         | |- context [py_get (PDict ?d) ?k ?v] =>
             let x := fresh "x" in
             let Hx := fresh "Hx" in
             destruct (py_get_dict d k v) as [x Hx]; rewrite Hx; cbn [bind]
         end.

(** C7: a line that does not decode is skipped, and the run is the run of
    the unit without that line: same writes, same buffer, same outcome. *)
Theorem undecodable_line_is_skipped (B : Z) (pre post : list string)
    (bad : string) (docs : list dict) (c : raw_collection) :
  json_loads bad = None ->
  normalize bad = Raise JSONDecodeError /\
  ingest B (pre ++ bad :: post) docs c = ingest B (pre ++ post) docs c /\
  parse_and_insert (pre ++ bad :: post) c B = parse_and_insert (pre ++ post) c B.
Proof.
  intros H. apply normalize_undecodable in H.
  split; [assumption|]. split.
  - now apply ingest_skip_middle.
  - unfold parse_and_insert. now rewrite ingest_skip_middle.
Qed.

(** C10: a line whose envelope is an object and whose bidRequestString is a
    string that does not decode is skipped in the same way. *)
Theorem undecodable_nested_document_is_skipped (B : Z) (pre post : list string)
    (line : string) (d : dict) (s : string)
    (docs : list dict) (c : raw_collection) :
  json_loads line = Some (PDict d) ->
  dict_lookup "bidRequestString" d = Some (PStr s) ->
  json_loads s = None ->
  normalize line = Raise JSONDecodeError /\
  ingest B (pre ++ line :: post) docs c = ingest B (pre ++ post) docs c /\
  parse_and_insert (pre ++ line :: post) c B = parse_and_insert (pre ++ post) c B.
Proof.
  intros Hl Hb Hs.
  assert (Hn : normalize line = Raise JSONDecodeError).
  { assert (Hnest : nested_document (PDict d) = Raise JSONDecodeError).
    { unfold nested_document, py_get, loads. rewrite Hb. simpl. now rewrite Hs. }
    rewrite (normalize_object _ _ Hl). cbv zeta. gets.
    rewrite Hnest. reflexivity. }
  split; [assumption|]. split.
  - now apply ingest_skip_middle.
  - unfold parse_and_insert. now rewrite ingest_skip_middle.
Qed.

Lemma get3_raises (v : pyval) (a b c : string) (default : pyval) (e : exn) :
  get3 v a b c default = Raise e -> e = AttributeError.
Proof.
  unfold get3, py_get.
  destruct v; simpl; try congruence.
  destruct (dict_lookup a d) as [x|]; simpl.
  - destruct x; simpl; try congruence.
    destruct (dict_lookup b d0) as [y|]; simpl.
    + destruct y; simpl; try congruence.
      destruct (dict_lookup c d1); congruence.
    + congruence.
  - congruence.
Qed.

Lemma resolve_geo_raises (v : pyval) (e : exn) :
  resolve_geo v = Raise e -> e = AttributeError.
Proof.
  unfold resolve_geo.
  destruct (get3 v "device" "geo" "country" (PStr "Others")) as [g|e0] eqn:E;
    cbn [bind].
  - destruct (eq_str g "Others"); [apply get3_raises | discriminate].
  - intros H. injection H as <-. now apply get3_raises in E.
Qed.

Lemma parse_price_raises (d : dict) (e : exn) :
  parse_price (PDict d) = Raise e -> e = ValueError \/ e = AttributeError.
Proof.
  unfold parse_price, py_get.
  destruct (dict_lookup "winPrice" d) as [w|]; cbn [bind].
  - destruct w; try (intros H; injection H as <-; auto).
    destruct (float_of_str (str_remove "USD/1M" s)); [discriminate|].
    intros H; injection H as <-; auto.
  - destruct (float_of_str (str_remove "USD/1M" "0")); [discriminate|].
    intros H; injection H as <-; auto.
Qed.

(** C9, for the lines on which the nested document decodes and the
    timestamp is not empty: a line whose envelope is an object and whose
    win price is no number once USD/1M is removed, or whose nested
    document is an object with a timestamp that is a string, not empty, and
    not in the format, raises an exception that is not caught: the call
    ends there with that exception, the collection is as the lines before
    left it, the buffered documents are not written and the lines after are
    not read. The exception is ValueError when the nested document is an
    object, the geo resolves and, for the timestamp, the price parses. *)
Theorem malformed_nested_field_raises (line : string) :
  (malformed_price line /\ nested_decodes line) \/ malformed_timestamp line ->
  exists e,
    e <> JSONDecodeError /\
    normalize line = Raise e /\
    (unparseable_price line \/ unparseable_timestamp line -> e = ValueError) /\
    forall B pre post docs c c1 d1,
      ingest B pre docs c = (c1, d1, Ok tt) ->
      ingest B (pre ++ line :: post) docs c = (c1, d1, Raise e) /\
      (docs = [] ->
       parse_and_insert (pre ++ line :: post) c B = (c1, Raise e)).
Proof.
  intros H.
  assert (Hstrict : unparseable_price line \/ unparseable_timestamp line ->
                    normalize line = Raise ValueError).
  { clear H.
    intros [(d & n & g & w & Hl & Hnest & Hg & Hw & Hf)
           |(d & n & g & p & t & Hl & Hnest & Hg & Hp & Ht & Hne & Hf)];
      rewrite (normalize_object _ _ Hl); cbv zeta.
    - assert (Hp : parse_price (PDict d) = Raise ValueError).
      { unfold parse_price, py_get. rewrite Hw. simpl. now rewrite Hf. }
      gets. rewrite Hnest. cbn [bind]. gets. rewrite Hg. cbn [bind]. gets.
      rewrite Hp. reflexivity.
    - assert (Htime : parse_time (PDict n) = Raise ValueError).
      { unfold parse_time, py_get. rewrite Ht. simpl.
        destruct (String.eqb_spec t ""); [contradiction|]. simpl.
        now rewrite Hf. }
      gets. rewrite Hnest. cbn [bind]. gets. rewrite Hg. cbn [bind]. gets.
      rewrite Hp. cbn [bind]. rewrite Htime. reflexivity. }
  assert (Hn : exists e, e <> JSONDecodeError /\ normalize line = Raise e).
  { destruct H as [[(d & w & Hl & Hw & Hf) Hdec]
                  |(d & n & t & Hl & Hnest & Ht & Hne & Hf)];
      rewrite (normalize_object _ _ Hl); cbv zeta.
    - assert (Hp : parse_price (PDict d) = Raise ValueError).
      { unfold parse_price, py_get. rewrite Hw. simpl. now rewrite Hf. }
      specialize (Hdec d Hl). gets.
      destruct (nested_document (PDict d)) as [n|e0]; cbn [bind].
      + destruct n as [| | | | | |n];
          try (exists AttributeError; split; [discriminate | reflexivity]).
        gets. destruct (resolve_geo (PDict n)) as [g|e0] eqn:Hg; cbn [bind].
        * gets. rewrite Hp. exists ValueError. split; [discriminate | reflexivity].
        * apply resolve_geo_raises in Hg. subst e0.
          exists AttributeError. split; [discriminate | reflexivity].
      + exists e0. split; [congruence | reflexivity].
    - assert (Htime : parse_time (PDict n) = Raise ValueError).
      { unfold parse_time, py_get. rewrite Ht. simpl.
        destruct (String.eqb_spec t ""); [contradiction|]. simpl.
        now rewrite Hf. }
      gets. rewrite Hnest. cbn [bind]. gets.
      destruct (resolve_geo (PDict n)) as [g|e0] eqn:Hg; cbn [bind].
      + gets. destruct (parse_price (PDict d)) as [p|e0] eqn:Hp; cbn [bind].
        * rewrite Htime. exists ValueError. split; [discriminate | reflexivity].
        * exists e0. split; [|reflexivity].
          destruct (parse_price_raises _ _ Hp); subst e0; discriminate.
      + apply resolve_geo_raises in Hg. subst e0.
        exists AttributeError. split; [discriminate | reflexivity]. }
  destruct Hn as (e & Hne & Hn).
  exists e. split; [assumption|]. split; [assumption|]. split.
  - intros Hs. apply Hstrict in Hs. congruence.
  - intros B pre post docs c c1 d1 Hpre.
    assert (Hrun : ingest B (pre ++ line :: post) docs c = (c1, d1, Raise e)).
    { apply ingest_abort_middle; assumption. }
    split; [assumption|].
    intros ->. unfold parse_and_insert. now rewrite Hrun.
Qed.

(** C8, as the code has it: without a bidRequestString the nested document
    is the empty object and the document is produced with the three fields
    at Others; with the empty string as bidRequestString the nested decoding
    fails and the line is skipped. *)
Theorem absent_nested_document_defaults :
  (forall line d p,
      json_loads line = Some (PDict d) ->
      dict_lookup "bidRequestString" d = None ->
      json_loads "{}" = Some (PDict []) ->
      parse_price (PDict d) = Ok p ->
      nested_document (PDict d) = Ok (PDict []) /\
      exists doc,
        normalize line = Ok doc /\
        dict_lookup "userAgent" doc = Some (PStr "Others") /\
        dict_lookup "site" doc = Some (PStr "Others") /\
        dict_lookup "exchange" doc = Some (PStr "Others")) /\
  (forall line d,
      json_loads line = Some (PDict d) ->
      dict_lookup "bidRequestString" d = Some (PStr "") ->
      json_loads "" = None ->
      nested_document (PDict d) = Raise JSONDecodeError /\
      normalize line = Raise JSONDecodeError).
Proof.
  split.
  - intros line d p Hl Hb Hempty Hp.
    assert (Hnest : nested_document (PDict d) = Ok (PDict [])).
    { unfold nested_document, py_get, loads. rewrite Hb. simpl. now rewrite Hempty. }
    split; [assumption|].
    assert (Hgeo : resolve_geo (PDict []) = Ok (PStr "Others")) by reflexivity.
    assert (Htime : parse_time (PDict []) = Ok 0) by reflexivity.
    rewrite (normalize_object _ _ Hl). cbv zeta. gets.
    rewrite Hnest. cbn [bind].
    change (py_get (PDict []) "userAgent" (PStr "Others")) with (Ok (PStr "Others")).
    change (py_get (PDict []) "url" (PStr "Others")) with (Ok (PStr "Others")).
    change (py_get (PDict []) "exchange" (PStr "Others")) with (Ok (PStr "Others")).
    cbn [bind]. rewrite Hgeo. cbn [bind]. rewrite Hp. cbn [bind].
    rewrite Htime. cbn [bind].
    eexists. split; [reflexivity|]. repeat split.
  - intros line d Hl Hb Hempty.
    assert (Hnest : nested_document (PDict d) = Raise JSONDecodeError).
    { unfold nested_document, py_get, loads. rewrite Hb. simpl. now rewrite Hempty. }
    split; [assumption|].
    rewrite (normalize_object _ _ Hl). cbv zeta. gets.
    rewrite Hnest. reflexivity.
Qed.

(** C1, as the code has it: on N lines that all normalise and a batch size
    B of at least one, the collection receives N / B calls of B documents
    each (rounded down), and the last N mod B documents are never written:
    the loop ends with them in the buffer and nothing flushes it. *)
Theorem partial_batch_is_dropped (B : Z) (lines : list string) (ds : list dict)
    (c : raw_collection) :
  1 <= B ->
  Forall2 (fun line d => normalize line = Ok d) lines ds ->
  exists chunks dropped,
    parse_and_insert lines c B = (c ++ chunks, Ok tt) /\
    List.concat chunks ++ dropped = ds /\
    Forall (fun b => Z.of_nat (List.length b) = B) chunks /\
    Z.of_nat (List.length chunks) = Z.of_nat (List.length lines) / B /\
    Z.of_nat (List.length dropped) = Z.of_nat (List.length lines) mod B.
Proof.
  intros HB Hall.
  destruct (ingest_valid_lines B lines ds HB Hall [] c)
    as (chunks & rest & Hrun & Hcat & Hsz & Hrest); [simpl; lia|].
  exists chunks, rest.
  assert (Hlen : Z.of_nat (List.length lines) =
                 B * Z.of_nat (List.length chunks) + Z.of_nat (List.length rest)).
  { rewrite (Forall2_length Hall). simpl in Hcat. rewrite <- Hcat.
    rewrite length_app, Nat2Z.inj_add.
    now rewrite (length_concat_uniform B chunks Hsz). }
  repeat split; try assumption.
  - unfold parse_and_insert. now rewrite Hrun.
  - apply (Z.div_unique_pos _ _ _ (Z.of_nat (List.length rest))); lia.
  - apply (Z.mod_unique_pos _ _ (Z.of_nat (List.length chunks))); lia.
Qed.

End Failures.

(** * Properties of the aggregation *)

Lemma key_eqb_refl (k : composite_key) : key_eqb k k = true.
Proof. unfold key_eqb. destruct (key_eq_dec k k); congruence. Qed.

Lemma key_eqb_neq (a b : composite_key) : a <> b -> key_eqb a b = false.
Proof. intros H. unfold key_eqb. destruct (key_eq_dec a b); congruence. Qed.

Lemma key_eqb_true (a b : composite_key) : key_eqb a b = true -> a = b.
Proof. unfold key_eqb. destruct (key_eq_dec a b); congruence. Qed.

(** *** The store's equality of keys *)

Lemma same_key_spec (a b : composite_key) :
  same_key a b = true <-> store_key a = store_key b.
Proof.
  unfold same_key, key_eqb.
  destruct (key_eq_dec (store_key a) (store_key b)); split; congruence.
Qed.

Lemma same_key_dec (a b : composite_key) :
  {store_key a = store_key b /\ same_key a b = true} +
  {store_key a <> store_key b /\ same_key a b = false}.
Proof.
  unfold same_key, key_eqb.
  destruct (key_eq_dec (store_key a) (store_key b)); [left | right]; auto.
Defined.

Lemma same_key_refl (k : composite_key) : same_key k k = true.
Proof. now apply same_key_spec. Qed.

Lemma same_key_sym (a b : composite_key) : same_key a b = same_key b a.
Proof.
  destruct (same_key_dec a b) as [[E ->]|[E ->]],
           (same_key_dec b a) as [[E' ->]|[E' ->]]; congruence.
Qed.

Lemma same_key_trans (a b c : composite_key) :
  same_key a b = true -> same_key b c = true -> same_key a c = true.
Proof. rewrite !same_key_spec. congruence. Qed.

Lemma same_key_right (x a b : composite_key) :
  store_key a = store_key b -> same_key x a = same_key x b.
Proof. intros E. unfold same_key. now rewrite E. Qed.

(** The normal form at work: 7.0 is 7, the negative zero is 0, one half
    has one normal form however it is written, and a boolean, a string and
    a number stay apart. *)
Example store_value_numbers :
  store_value (PFloat (Reference.float_of_Z 7)) = PInt 7 /\
  store_value (PFloat (S754_zero true)) = store_value (PInt 0) /\
  store_value (PFloat (S754_finite false 2 (-2)))
  = store_value (PFloat (S754_finite false 1 (-1))) /\
  store_value (PFloat (S754_finite false 1 (-1))) <> store_value (PInt 0) /\
  store_value (PList [PFloat (Reference.float_of_Z 7)])
  = store_value (PList [PInt 7]) /\
  store_value (PBool true) <> store_value (PInt 1) /\
  store_value (PStr "7") <> store_value (PInt 7).
Proof. repeat split; try (vm_compute; reflexivity); discriminate. Qed.

Lemma known_spec (k : composite_key) (ks : list composite_key) :
  known k ks = true <-> In (store_key k) (map store_key ks).
Proof.
  unfold known. rewrite existsb_exists, in_map_iff.
  split; intros (x & H1 & H2); exists x.
  - split; [|assumption]. now apply same_key_spec.
  - split; [assumption|]. now apply same_key_spec.
Qed.

(** *** The groups *)

Lemma group_prices_same (a b : composite_key)
    (groups : list (composite_key * list float)) :
  store_key a = store_key b -> group_prices a groups = group_prices b groups.
Proof.
  intros E. induction groups as [|[k0 ps] groups IH]; simpl; [reflexivity|].
  now rewrite (same_key_right k0 a b E), IH.
Qed.

Lemma group_insert_prices (k k' : composite_key) (p : float)
    (groups : list (composite_key * list float)) :
  group_prices k' (group_insert k p groups) =
  if same_key k k' then group_prices k groups ++ [p]
  else group_prices k' groups.
Proof.
  induction groups as [|[k0 ps] groups IH]; simpl.
  - destruct (same_key k k'); reflexivity.
  - destruct (same_key_dec k0 k) as [[E0 ->]|[E0 ->]]; simpl.
    + destruct (same_key_dec k0 k') as [[E1 ->]|[E1 ->]],
               (same_key_dec k k') as [[E2 ->]|[E2 ->]];
        try reflexivity; congruence.
    + destruct (same_key_dec k0 k') as [[E1 ->]|[E1 ->]].
      * destruct (same_key_dec k k') as [[E2 ->]|[E2 ->]];
          [congruence | reflexivity].
      * apply IH.
Qed.

Lemma group_insert_keys (k : composite_key) (p : float)
    (groups : list (composite_key * list float)) :
  map fst (group_insert k p groups) =
  if known k (map fst groups) then map fst groups
  else map fst groups ++ [k].
Proof.
  induction groups as [|[k0 ps] groups IH]; simpl.
  - reflexivity.
  - destruct (same_key k0 k); simpl.
    + reflexivity.
    + rewrite IH. unfold known.
      destruct (existsb (fun k' => same_key k' k) (map fst groups)); reflexivity.
Qed.

Lemma group_stage_snoc (source : list NormalizedWinRecord) (d : NormalizedWinRecord) :
  group_stage (source ++ [d]) =
  group_insert (group_key d) (price d) (group_stage source).
Proof. unfold group_stage. now rewrite fold_left_app. Qed.

Lemma prices_of_snoc (k : composite_key) (source : list NormalizedWinRecord)
    (d : NormalizedWinRecord) :
  prices_of k (source ++ [d]) =
  if same_key (group_key d) k then prices_of k source ++ [price d]
  else prices_of k source.
Proof.
  unfold prices_of. rewrite filter_app, map_app. simpl.
  destruct (same_key (group_key d) k); simpl.
  - reflexivity.
  - now rewrite app_nil_r.
Qed.

(** The groups hold, for each key, the prices of the documents with that
    key, in order. *)
Lemma group_stage_prices (k : composite_key) (source : list NormalizedWinRecord) :
  group_prices k (group_stage source) = prices_of k source.
Proof.
  induction source as [|d source IH] using rev_ind.
  - reflexivity.
  - rewrite group_stage_snoc, group_insert_prices, prices_of_snoc.
    destruct (same_key_dec (group_key d) k) as [[E ->]|[E ->]].
    + now rewrite (group_prices_same _ _ _ E), IH.
    + apply IH.
Qed.

(** No two groups have one key for the store, the keys of the groups are
    those of the documents, and every group goes under the key of one of
    its documents. *)
Lemma group_stage_keys (source : list NormalizedWinRecord) :
  NoDup (map store_key (map fst (group_stage source))) /\
  (forall c, In c (map store_key (map fst (group_stage source))) <->
             In c (map store_key (map group_key source))) /\
  (forall k, In k (map fst (group_stage source)) -> In k (map group_key source)).
Proof.
  induction source as [|d source (IHnd & IHin & IHrep)] using rev_ind.
  - split; [constructor|]. split; [reflexivity | auto].
  - rewrite group_stage_snoc, group_insert_keys, !map_app. simpl.
    destruct (known (group_key d) (map fst (group_stage source))) eqn:Hk.
    + apply known_spec in Hk.
      split; [assumption|]. split.
      * intros c. rewrite in_app_iff, <- IHin. simpl.
        split; [tauto|]. intros [H|[<-|[]]]; assumption.
      * intros k H. apply in_app_iff. auto.
    + assert (Hn : ~ In (store_key (group_key d))
                        (map store_key (map fst (group_stage source)))).
      { intros H. apply known_spec in H. congruence. }
      rewrite map_app. simpl. split; [|split].
      * apply NoDup_rev in IHnd. rewrite <- (rev_involutive (_ ++ _)).
        apply NoDup_rev. rewrite rev_app_distr. simpl. constructor.
        -- now rewrite <- in_rev.
        -- assumption.
      * intros c. rewrite !in_app_iff, IHin. reflexivity.
      * intros k H. apply in_app_iff in H. apply in_app_iff.
        destruct H as [H|H]; auto.
Qed.

Lemma group_prices_in (k : composite_key) (ps : list float)
    (groups : list (composite_key * list float)) :
  NoDup (map store_key (map fst groups)) -> In (k, ps) groups ->
  group_prices k groups = ps.
Proof.
  induction groups as [|[k0 ps0] groups IH]; simpl; intros Hnd Hin.
  - contradiction.
  - inversion Hnd as [|? ? Hnotin Hnd']; subst.
    destruct Hin as [Heq|Hin].
    + injection Heq as -> ->. now rewrite same_key_refl.
    + destruct (same_key_dec k0 k) as [[E ->]|[E ->]].
      * exfalso. apply Hnotin. rewrite E.
        apply in_map. now apply (in_map fst) in Hin.
      * now apply IH.
Qed.

(** Keys that differ for the store differ. *)
Lemma nodup_store_keys (ks : list composite_key) :
  NoDup (map store_key ks) -> NoDup ks.
Proof. apply NoDup_map_inv. Qed.

(** ** The order on prices *)

Lemma float_leb_rank (x y : float) :
  float_leb x y = true <-> lex_le (float_rank x) (float_rank y).
Proof.
  destruct x as [sx|sx| |sx mx ex], y as [sy|sy| |sy my ey];
    try destruct sx; try destruct sy;
    unfold float_leb, SFleb, SFcompare, float_rank, lex_le;
    try (split; [intros _; lia | reflexivity]);
    try (split; [discriminate | intros H; exfalso; lia]);
    change (Pos.compare_cont Eq mx my) with (Pos.compare mx my);
    destruct (Z.compare_spec ex ey);
    destruct (Pos.compare_spec mx my); simpl;
    split; try discriminate; try reflexivity; try (intros _; lia);
    intros H'; exfalso; lia.
Qed.

Lemma float_leb_total (x y : float) :
  float_leb x y = true \/ float_leb y x = true.
Proof.
  rewrite !float_leb_rank.
  destruct (float_rank x) as [[a1 a2] a3], (float_rank y) as [[b1 b2] b3].
  unfold lex_le. lia.
Qed.

Lemma float_leb_refl (x : float) : float_leb x x = true.
Proof. destruct (float_leb_total x x); assumption. Qed.

Lemma float_leb_trans (x y z : float) :
  float_leb x y = true -> float_leb y z = true -> float_leb x z = true.
Proof.
  rewrite !float_leb_rank.
  destruct (float_rank x) as [[a1 a2] a3], (float_rank y) as [[b1 b2] b3],
           (float_rank z) as [[c1 c2] c3].
  unfold lex_le. lia.
Qed.

Lemma fold_min_least (rest : list float) :
  forall p,
    let m := fold_left float_min rest p in
    In m (p :: rest) /\ forall x, In x (p :: rest) -> float_leb m x = true.
Proof.
  induction rest as [|y rest IH]; intros p; simpl.
  - split; [auto|]. intros x [<-|[]]. apply float_leb_refl.
  - destruct (IH (float_min p y)) as [Hin Hle]. split.
    + destruct Hin as [Hin|Hin]; [|auto].
      rewrite <- Hin. unfold float_min. destruct (float_leb p y); auto.
    + assert (Hm : float_leb (fold_left float_min rest (float_min p y))
                             (float_min p y) = true) by (apply Hle; simpl; auto).
      intros x [<-|[<-|Hx]].
      * apply (float_leb_trans _ _ _ Hm). unfold float_min.
        destruct (float_leb p y) eqn:E; [apply float_leb_refl|].
        destruct (float_leb_total p y); congruence.
      * apply (float_leb_trans _ _ _ Hm). unfold float_min.
        destruct (float_leb p y) eqn:E; [assumption | apply float_leb_refl].
      * apply Hle. simpl. auto.
Qed.

Lemma fold_max_greatest (rest : list float) :
  forall p,
    let m := fold_left float_max rest p in
    In m (p :: rest) /\ forall x, In x (p :: rest) -> float_leb x m = true.
Proof.
  induction rest as [|y rest IH]; intros p; simpl.
  - split; [auto|]. intros x [<-|[]]. apply float_leb_refl.
  - destruct (IH (float_max p y)) as [Hin Hle]. split.
    + destruct Hin as [Hin|Hin]; [|auto].
      rewrite <- Hin. unfold float_max. destruct (float_leb y p); auto.
    + assert (Hm : float_leb (float_max p y)
                             (fold_left float_max rest (float_max p y)) = true)
        by (apply Hle; simpl; auto).
      intros x [<-|[<-|Hx]].
      * refine (float_leb_trans _ _ _ _ Hm). unfold float_max.
        destruct (float_leb y p) eqn:E; [apply float_leb_refl|].
        destruct (float_leb_total p y); congruence.
      * refine (float_leb_trans _ _ _ _ Hm). unfold float_max.
        destruct (float_leb y p) eqn:E; [assumption | apply float_leb_refl].
      * apply Hle. simpl. auto.
Qed.




Lemma aggregate_keys (source : list NormalizedWinRecord) :
  map bucket_key (aggregate source) = map fst (group_stage source).
Proof. unfold aggregate. now rewrite map_map. Qed.

(** A bucket goes under the key of a document and holds the prices of the
    documents with that key. *)
Lemma aggregate_bucket (source : list NormalizedWinRecord) (b : AggregateBucket) :
  In b (aggregate source) ->
  In (bucket_key b) (map group_key source) /\
  b = bucket_of (bucket_key b, prices_of (bucket_key b) source).
Proof.
  unfold aggregate. intros Hb. apply in_map_iff in Hb.
  destruct Hb as ([k qs] & <- & Hg). simpl.
  destruct (group_stage_keys source) as (Hnd & Hin & Hrep).
  split.
  - apply Hrep. now apply (in_map fst) in Hg.
  - rewrite <- (group_stage_prices k source).
    now rewrite (group_prices_in k qs _ Hnd Hg).
Qed.



(** * Properties of the merge *)

Lemma apply_set_upsert_of (b d : AggregateBucket) :
  bucket_key d = bucket_key b -> apply_set (update_query (upsert_of b)) d = b.
Proof. destruct b, d. simpl. now intros ->. Qed.

Lemma inserted_upsert_of (b : AggregateBucket) :
  inserted (filter_query (upsert_of b)) (update_query (upsert_of b)) = b.
Proof. now destruct b. Qed.

Lemma update_first_settled (op : UpdateOne) (c : list AggregateBucket) :
  settled op c -> update_first (filter_query op) (update_query op) c = Some c.
Proof.
  induction c as [|d rest IH]; simpl; [contradiction|].
  destruct (key_eq_dec (bucket_key d) (filter_query op)).
  - now intros ->.
  - intros H. now rewrite (IH H).
Qed.

(** An operation whose values are already in place changes nothing. *)
Lemma update_one_settled (op : UpdateOne) (c : list AggregateBucket) :
  settled op c -> update_one op c = c.
Proof.
  intros H. unfold update_one. now rewrite (update_first_settled op c H).
Qed.

(** After an upsert its values are in place. *)
Lemma update_one_settles (op : UpdateOne) (c : list AggregateBucket) :
  upsert op = true -> settled op (update_one op c).
Proof.
  intros Hup. unfold update_one. rewrite Hup.
  induction c as [|d rest IH]; simpl.
  - destruct (key_eq_dec (filter_query op) (filter_query op)); [reflexivity|congruence].
  - destruct (key_eq_dec (bucket_key d) (filter_query op)) as [e|ne]; simpl.
    + destruct (key_eq_dec (bucket_key d) (filter_query op)); [reflexivity|contradiction].
    + destruct (update_first (filter_query op) (update_query op) rest); simpl;
        destruct (key_eq_dec (bucket_key d) (filter_query op));
        try contradiction; assumption.
Qed.

(** An operation on another key leaves them in place. *)
Lemma update_one_keeps_settled (op op' : UpdateOne) (c : list AggregateBucket) :
  filter_query op <> filter_query op' ->
  settled op' c -> settled op' (update_one op c).
Proof.
  intros Hne. unfold update_one.
  induction c as [|d rest IH]; simpl; [contradiction|].
  destruct (key_eq_dec (bucket_key d) (filter_query op)) as [e|ne]; simpl.
  - destruct (key_eq_dec (bucket_key d) (filter_query op')); [congruence|auto].
  - intros H.
    destruct (key_eq_dec (bucket_key d) (filter_query op')) as [e'|ne'].
    + destruct (update_first (filter_query op) (update_query op) rest); simpl.
      * destruct (key_eq_dec (bucket_key d) (filter_query op')); [assumption|contradiction].
      * destruct (upsert op); simpl;
          destruct (key_eq_dec (bucket_key d) (filter_query op'));
          try assumption; contradiction.
    + specialize (IH H).
      destruct (update_first (filter_query op) (update_query op) rest); simpl.
      * destruct (key_eq_dec (bucket_key d) (filter_query op')); [contradiction|assumption].
      * destruct (upsert op); simpl;
          destruct (key_eq_dec (bucket_key d) (filter_query op'));
          try contradiction; assumption.
Qed.

Lemma bulk_write_keeps_settled (op' : UpdateOne) (ops : list UpdateOne) :
  ~ In (filter_query op') (map filter_query ops) ->
  forall c, settled op' c -> settled op' (bulk_write ops c).
Proof.
  unfold bulk_write.
  induction ops as [|op ops IH]; simpl; intros Hnotin c H; [assumption|].
  apply IH; [tauto|].
  apply update_one_keeps_settled; [|assumption].
  intros E. apply Hnotin. left. assumption.
Qed.

(** After a bulk write of upserts on distinct keys every operation's values
    are in place. *)
Lemma bulk_write_settles (ops : list UpdateOne) :
  NoDup (map filter_query ops) ->
  Forall (fun op => upsert op = true) ops ->
  forall c op, In op ops -> settled op (bulk_write ops c).
Proof.
  induction ops as [|op0 ops IH]; simpl; intros Hnd Hup c op Hin; [contradiction|].
  inversion Hnd as [|? ? Hnotin Hnd']; subst.
  inversion Hup as [|? ? Hup0 Hup']; subst.
  change (bulk_write (op0 :: ops) c) with (bulk_write ops (update_one op0 c)).
  destruct Hin as [<-|Hin].
  - apply bulk_write_keeps_settled; [assumption|].
    now apply update_one_settles.
  - now apply IH.
Qed.

Lemma bulk_write_settled (ops : list UpdateOne) (c : list AggregateBucket) :
  (forall op, In op ops -> settled op c) -> bulk_write ops c = c.
Proof.
  induction ops as [|op ops IH]; intros H; [reflexivity|].
  change (bulk_write (op :: ops) c) with (bulk_write ops (update_one op c)).
  rewrite update_one_settled by (apply H; simpl; auto).
  apply IH. intros op' Hin. apply H. simpl. auto.
Qed.

Lemma upsert_of_keys (buckets : list AggregateBucket) :
  map filter_query (map upsert_of buckets) = map bucket_key buckets.
Proof. rewrite map_map. reflexivity. Qed.

Lemma upsert_of_upserts (buckets : list AggregateBucket) :
  Forall (fun op => upsert op = true) (map upsert_of buckets).
Proof. apply Forall_forall. intros op H. apply in_map_iff in H. now destruct H as (b & <- & _). Qed.

Lemma merge_bulk_write (buckets target : list AggregateBucket) :
  merge buckets target = bulk_write (map upsert_of buckets) target.
Proof. unfold merge. now destruct (map upsert_of buckets). Qed.

Lemma aggregate_keys_nodup (source : list NormalizedWinRecord) :
  NoDup (map bucket_key (aggregate source)).
Proof.
  rewrite aggregate_keys. apply nodup_store_keys.
  exact (proj1 (group_stage_keys source)).
Qed.

(** After a merge of buckets with distinct keys, merging any of them again,
    in any order, changes nothing. *)
Lemma merge_again (buckets again target : list AggregateBucket) :
  NoDup (map bucket_key buckets) ->
  incl again buckets ->
  merge again (merge buckets target) = merge buckets target.
Proof.
  intros Hnd Hincl. rewrite !merge_bulk_write.
  apply bulk_write_settled. intros op Hin.
  apply bulk_write_settles; [|apply upsert_of_upserts|].
  - now rewrite upsert_of_keys.
  - apply in_map_iff in Hin. destruct Hin as (b & <- & Hb).
    apply in_map, Hincl, Hb.
Qed.

(** C3: a second run over the same raw collection leaves the aggregate
    collection exactly as the first run left it: the same documents in the
    same order, so no key gained a document and no value changed. The same
    holds when the second run meets the buckets in another order. *)
Theorem rerun_changes_nothing (source : list NormalizedWinRecord)
    (target : list AggregateBucket) :
  aggregate_and_upsert source (aggregate_and_upsert source target)
  = aggregate_and_upsert source target /\
  (forall k,
      records_for k
        (aggregate_and_upsert source (aggregate_and_upsert source target))
      = records_for k (aggregate_and_upsert source target)) /\
  (forall reordered,
      incl reordered (aggregate source) ->
      merge reordered (aggregate_and_upsert source target)
      = aggregate_and_upsert source target).
Proof.
  assert (H : forall again,
             incl again (aggregate source) ->
             merge again (aggregate_and_upsert source target)
             = aggregate_and_upsert source target).
  { intros again Hincl. unfold aggregate_and_upsert.
    apply merge_again; [apply aggregate_keys_nodup | assumption]. }
  assert (H2 : aggregate_and_upsert source (aggregate_and_upsert source target)
               = aggregate_and_upsert source target).
  { unfold aggregate_and_upsert at 1. apply H, incl_refl. }
  split; [assumption|]. split; [|assumption].
  intros k. now rewrite H2.
Qed.

(** ** Upsert, not duplicate *)

Lemma records_for_app (k : composite_key) (c1 c2 : list AggregateBucket) :
  records_for k (c1 ++ c2) = records_for k c1 ++ records_for k c2.
Proof. apply filter_app. Qed.

Lemma update_first_none (k : composite_key) (s : SetFields)
    (c : list AggregateBucket) :
  update_first k s c = None -> records_for k c = [].
Proof.
  induction c as [|d rest IH]; simpl; [reflexivity|].
  destruct (key_eq_dec (bucket_key d) k) as [e|ne]; [discriminate|].
  rewrite (key_eqb_neq _ _ ne).
  destruct (update_first k s rest); [discriminate|auto].
Qed.

Lemma update_first_some (k : composite_key) (s : SetFields)
    (c c' : list AggregateBucket) :
  update_first k s c = Some c' ->
  exists d rest,
    records_for k c = d :: rest /\ records_for k c' = apply_set s d :: rest /\
    forall k', k' <> k -> records_for k' c' = records_for k' c.
Proof.
  revert c'. induction c as [|d rest IH]; simpl; intros c' H; [discriminate|].
  destruct (key_eq_dec (bucket_key d) k) as [e|ne].
  - injection H as <-. exists d, (records_for k rest). simpl.
    rewrite e, key_eqb_refl. repeat split.
    intros k' Hk'. rewrite (key_eqb_neq k k'); congruence.
  - rewrite (key_eqb_neq _ _ ne).
    destruct (update_first k s rest) as [r'|]; [|discriminate].
    injection H as <-. destruct (IH r' eq_refl) as (d0 & rest0 & H1 & H2 & H3).
    exists d0, rest0. simpl. rewrite (key_eqb_neq _ _ ne). repeat split; auto.
    intros k' Hk'. rewrite (H3 k' Hk'). reflexivity.
Qed.

(** An upsert on key [k]: the first document with that key takes the new
    values, or a document is added when there is none; other keys keep
    their documents. *)
Lemma update_one_records (b : AggregateBucket) (c : list AggregateBucket) :
  records_for (bucket_key b) (update_one (upsert_of b) c) =
  match records_for (bucket_key b) c with
  | [] => [b]
  | _ :: rest => b :: rest
  end.
Proof.
  unfold update_one.
  destruct (update_first (filter_query (upsert_of b)) (update_query (upsert_of b)) c)
    as [c'|] eqn:E.
  - destruct (update_first_some _ _ _ _ E) as (d & rest & H1 & H2 & _).
    simpl in H1, H2. rewrite H1, H2. f_equal.
    apply apply_set_upsert_of.
    assert (Hd : In d (records_for (bucket_key b) c)) by (rewrite H1; simpl; auto).
    apply filter_In in Hd. now apply key_eqb_true.
  - apply update_first_none in E. simpl in E.
    replace (upsert (upsert_of b)) with true by reflexivity.
    rewrite records_for_app, E, inserted_upsert_of. simpl.
    now rewrite key_eqb_refl.
Qed.

Lemma update_one_records_other (k : composite_key) (b : AggregateBucket)
    (c : list AggregateBucket) :
  bucket_key b <> k ->
  records_for k (update_one (upsert_of b) c) = records_for k c.
Proof.
  intros Hne. unfold update_one.
  destruct (update_first (filter_query (upsert_of b)) (update_query (upsert_of b)) c)
    as [c'|] eqn:E.
  - destruct (update_first_some _ _ _ _ E) as (d & rest & _ & _ & H3).
    apply H3. simpl. congruence.
  - simpl. rewrite records_for_app. simpl.
    rewrite (key_eqb_neq _ _ Hne). apply app_nil_r.
Qed.

Lemma merge_records_other (k : composite_key) (buckets : list AggregateBucket) :
  ~ In k (map bucket_key buckets) ->
  forall c, records_for k (merge buckets c) = records_for k c.
Proof.
  induction buckets as [|b buckets IH]; intros Hnotin c; [reflexivity|].
  rewrite merge_bulk_write. simpl in *.
  change (bulk_write (upsert_of b :: map upsert_of buckets) c)
    with (bulk_write (map upsert_of buckets) (update_one (upsert_of b) c)).
  rewrite <- merge_bulk_write, IH by tauto.
  apply update_one_records_other. tauto.
Qed.

(** A merge of buckets with distinct keys: the first document of each
    bucket's key becomes the bucket, or the bucket is added. *)
Lemma merge_records (buckets : list AggregateBucket) (b : AggregateBucket) :
  NoDup (map bucket_key buckets) -> In b buckets ->
  forall c,
    records_for (bucket_key b) (merge buckets c) =
    match records_for (bucket_key b) c with
    | [] => [b]
    | _ :: rest => b :: rest
    end.
Proof.
  induction buckets as [|b0 buckets IH]; intros Hnd Hin c; [contradiction|].
  simpl in Hnd. inversion Hnd as [|? ? Hnotin Hnd']; subst.
  rewrite merge_bulk_write. simpl.
  change (bulk_write (upsert_of b0 :: map upsert_of buckets) c)
    with (bulk_write (map upsert_of buckets) (update_one (upsert_of b0) c)).
  rewrite <- merge_bulk_write.
  destruct Hin as [->|Hin].
  - rewrite merge_records_other by assumption. apply update_one_records.
  - rewrite IH by assumption.
    rewrite update_one_records_other; [reflexivity|].
    intros E. apply Hnotin. rewrite E. now apply in_map.
Qed.


(** * Further properties of the ingestion *)

Section IngestionShape.
Context {R : Runtime}.

(** The loop on a collection is the loop on the empty collection, with its
    calls added after those the collection already had. *)
Lemma ingest_frame (B : Z) (lines : list string) :
  forall docs c,
    ingest B lines docs c =
    (c ++ fst (fst (ingest B lines docs [])),
     snd (fst (ingest B lines docs [])),
     snd (ingest B lines docs [])).
Proof.
  induction lines as [|line lines IH]; intros docs c; simpl.
  - now rewrite app_nil_r.
  - destruct (normalize line) as [doc|e].
    + destruct (B <=? _).
      * rewrite (IH [] (insert_many (docs ++ [doc]) c)).
        rewrite (IH [] (insert_many (docs ++ [doc]) [])).
        unfold insert_many. simpl. now rewrite <- app_assoc.
      * apply IH.
    + destruct e; simpl; try (now rewrite app_nil_r). apply IH.
Qed.

Lemma parse_and_insert_frame (B : Z) (lines : list string) (c : raw_collection) :
  parse_and_insert lines c B =
  (c ++ fst (parse_and_insert lines [] B), snd (parse_and_insert lines [] B)).
Proof.
  unfold parse_and_insert. rewrite (ingest_frame B lines [] c).
  destruct (ingest B lines [] []) as [[a d] r]. reflexivity.
Qed.

(** X1: parse_and_insert only appends: the calls the collection already
    received stay as they are, and the calls it adds (and its outcome) do
    not depend on the collection. So ingesting the same unit a second time
    appends the same documents a second time. *)
Theorem parse_and_insert_appends (B : Z) (lines : list string)
    (c : raw_collection) :
  let added := fst (parse_and_insert lines [] B) in
  let outcome := snd (parse_and_insert lines [] B) in
  parse_and_insert lines c B = (c ++ added, outcome) /\
  parse_and_insert lines (fst (parse_and_insert lines c B)) B
  = (c ++ added ++ added, outcome).
Proof.
  intros added outcome.
  assert (H : parse_and_insert lines c B = (c ++ added, outcome))
    by apply parse_and_insert_frame.
  split; [assumption|].
  rewrite H. simpl. rewrite parse_and_insert_frame.
  fold added outcome. now rewrite <- app_assoc.
Qed.

Lemma ingest_calls_nonempty (B : Z) (lines : list string) :
  forall docs c,
    Forall (fun b => b <> []) c ->
    Forall (fun b => b <> []) (fst (fst (ingest B lines docs c))).
Proof.
  induction lines as [|line lines IH]; intros docs c Hc; simpl.
  - assumption.
  - destruct (normalize line) as [doc|e].
    + destruct (B <=? _).
      * apply IH. unfold insert_many. apply Forall_app. split; [assumption|].
        constructor; [|constructor]. now destruct docs.
      * now apply IH.
    + destruct e; simpl; auto.
Qed.

Lemma ingest_calls_full (B : Z) (lines : list string) :
  1 <= B ->
  forall docs c,
    Z.of_nat (List.length docs) < B ->
    Forall (fun b => Z.of_nat (List.length b) = B) c ->
    Forall (fun b => Z.of_nat (List.length b) = B) (fst (fst (ingest B lines docs c)))
    /\ Z.of_nat (List.length (snd (fst (ingest B lines docs c)))) < B.
Proof.
  intros HB. induction lines as [|line lines IH]; intros docs c Hd Hc; simpl.
  - auto.
  - destruct (normalize line) as [doc|e].
    + assert (Hlen : Z.of_nat (List.length (docs ++ [doc]))
                     = Z.of_nat (List.length docs) + 1).
      { rewrite length_app. simpl. lia. }
      destruct (B <=? Z.of_nat (List.length (docs ++ [doc]))) eqn:Hfull.
      * apply Z.leb_le in Hfull. apply IH; [simpl; lia|].
        unfold insert_many. apply Forall_app. split; [assumption|].
        constructor; [lia | constructor].
      * apply Z.leb_gt in Hfull. apply IH; [lia | assumption].
    + destruct e; simpl; auto.
Qed.

(** X2: insert_many is never called with an empty list, and with a batch
    size of at least one every call carries exactly batch_size documents,
    whatever the lines are. *)
Theorem every_call_is_a_full_batch (B : Z) (lines : list string) :
  Forall (fun b => b <> []) (fst (parse_and_insert lines [] B)) /\
  (1 <= B ->
   Forall (fun b => Z.of_nat (List.length b) = B)
          (fst (parse_and_insert lines [] B))).
Proof.
  unfold parse_and_insert.
  pose proof (ingest_calls_nonempty B lines [] [] (Forall_nil _)) as Hne.
  split.
  - destruct (ingest B lines [] []) as [[a d] r]. exact Hne.
  - intros HB.
    destruct (ingest_calls_full B lines HB [] []) as [Hfull _];
      [simpl; lia | constructor |].
    destruct (ingest B lines [] []) as [[a d] r]. exact Hfull.
Qed.

Lemma ingest_short (B : Z) (lines : list string) :
  forall docs c,
    Z.of_nat (List.length docs) + Z.of_nat (List.length lines) < B ->
    fst (fst (ingest B lines docs c)) = c.
Proof.
  induction lines as [|line lines IH]; intros docs c Hlen; simpl.
  - reflexivity.
  - simpl in Hlen. destruct (normalize line) as [doc|e].
    + assert (Hl : Z.of_nat (List.length (docs ++ [doc]))
                   = Z.of_nat (List.length docs) + 1).
      { rewrite length_app. simpl. lia. }
      destruct (B <=? Z.of_nat (List.length (docs ++ [doc]))) eqn:Hfull.
      * apply Z.leb_le in Hfull. lia.
      * apply IH. lia.
    + destruct e; simpl; try reflexivity. apply IH. lia.
Qed.

(** X3: a unit with fewer lines than batch_size leaves the collection
    exactly as it was, whatever its lines are. *)
Theorem short_unit_writes_nothing (B : Z) (lines : list string)
    (c : raw_collection) :
  Z.of_nat (List.length lines) < B ->
  fst (parse_and_insert lines c B) = c.
Proof.
  intros H. unfold parse_and_insert.
  pose proof (ingest_short B lines [] c) as Hs. simpl in Hs.
  specialize (Hs H).
  destruct (ingest B lines [] c) as [[a d] r]. exact Hs.
Qed.

Lemma ingest_singletons (B : Z) (lines : list string) :
  B <= 1 ->
  forall c,
    ingest B lines [] c =
    (c ++ map (fun d => [d]) (documents_of lines), [], outcome_of lines).
Proof.
  intros HB. induction lines as [|line lines IH]; intros c; simpl.
  - now rewrite app_nil_r.
  - destruct (normalize line) as [doc|e].
    + destruct (B <=? 1) eqn:E; [|apply Z.leb_gt in E; lia].
      rewrite IH. unfold insert_many. simpl. now rewrite <- app_assoc.
    + destruct e; simpl; try (now rewrite app_nil_r). apply IH.
Qed.

(** X4: with a batch size of one or less every document is written at once,
    in a call of its own, and none is lost: the collection receives the
    documents of the lines in order, one per call. *)
Theorem batch_size_one_writes_every_document (B : Z) (lines : list string)
    (c : raw_collection) :
  B <= 1 ->
  parse_and_insert lines c B =
  (c ++ map (fun d => [d]) (documents_of lines), outcome_of lines).
Proof.
  intros HB. unfold parse_and_insert. now rewrite (ingest_singletons B lines HB c).
Qed.

Lemma ingest_contents (B : Z) (lines : list string) :
  forall docs c,
    List.concat (fst (fst (ingest B lines docs c)))
    ++ snd (fst (ingest B lines docs c))
    = List.concat c ++ docs ++ documents_of lines.
Proof.
  induction lines as [|line lines IH]; intros docs c; simpl.
  - now rewrite app_nil_r.
  - destruct (normalize line) as [doc|e].
    + destruct (B <=? _).
      * rewrite IH. unfold insert_many. rewrite concat_app. simpl.
        rewrite app_nil_r, <- !app_assoc. reflexivity.
      * rewrite IH. now rewrite <- app_assoc.
    + destruct e; simpl; try (now rewrite app_nil_r). apply IH.
Qed.

(** X5: the documents written are the documents of the lines, in line
    order and each once, except for a tail that is never written; with a
    batch size of at least one that tail has fewer than batch_size
    documents. *)
Theorem written_documents_are_a_prefix (B : Z) (lines : list string) :
  exists dropped,
    contents (fst (parse_and_insert lines [] B)) ++ dropped = documents_of lines /\
    (1 <= B -> Z.of_nat (List.length dropped) < B).
Proof.
  unfold parse_and_insert, contents.
  pose proof (ingest_contents B lines [] []) as Hc. simpl in Hc.
  exists (snd (fst (ingest B lines [] []))). split.
  - destruct (ingest B lines [] []) as [[a d] r]. exact Hc.
  - intros HB.
    destruct (ingest_calls_full B lines HB [] []) as [_ Hd];
      [simpl; lia | constructor | exact Hd].
Qed.

(** A line that raises something other than a decoding error ends the
    call with that exception; the collection is as the lines before it left
    it. *)
Lemma raising_line_ends_call (B : Z) (pre post : list string) (line : string)
    (c c1 : raw_collection) (d1 : list dict) (e : exn) :
  normalize line = Raise e -> e <> JSONDecodeError ->
  ingest B pre [] c = (c1, d1, Ok tt) ->
  parse_and_insert (pre ++ line :: post) c B = (c1, Raise e).
Proof.
  intros Hn He Hpre. unfold parse_and_insert.
  now rewrite (ingest_abort_middle B pre post line [] d1 c c1 e Hn He Hpre).
Qed.

End IngestionShape.

(** * Lines the program cannot normalise *)

Section TypeFailures.
Context {R : Runtime}.

Ltac gets :=
  repeat match goal with
         | |- context [py_get (PDict ?d) ?k ?v] =>
             let x := fresh "x" in
             let Hx := fresh "Hx" in
             destruct (py_get_dict d k v) as [x Hx]; rewrite Hx; cbn [bind]
         end.

Lemma py_get_not_dict (v : pyval) (k : string) (default : pyval) :
  is_dict v = false -> py_get v k default = Raise AttributeError.
Proof. destruct v; simpl; intros H; try reflexivity; discriminate. Qed.

(** X6: a line that is valid JSON but not an object (an array, a number, a
    string, null) raises AttributeError, which is not caught: the call ends
    there and the lines after it are not read. *)
Theorem non_object_line_raises (line : string) (v : pyval) :
  json_loads line = Some v ->
  is_dict v = false ->
  normalize line = Raise AttributeError /\
  forall B pre post c c1 d1,
    ingest B pre [] c = (c1, d1, Ok tt) ->
    parse_and_insert (pre ++ line :: post) c B = (c1, Raise AttributeError).
Proof.
  intros Hl Hv.
  assert (Hn : normalize line = Raise AttributeError).
  { unfold normalize, loads. rewrite Hl. cbn [bind].
    now rewrite (py_get_not_dict v _ _ Hv). }
  split; [assumption|]. intros B pre post c c1 d1 Hpre.
  apply (raising_line_ends_call B pre post line c c1 d1);
    [assumption | discriminate | assumption].
Qed.

(** X7: a bidRequestString that is not a string (the bid request given as
    an object, say) raises TypeError, and one that decodes to something
    other than an object raises AttributeError; neither is caught. *)
Theorem nested_document_must_be_an_encoded_object :
  (forall line d v,
      json_loads line = Some (PDict d) ->
      dict_lookup "bidRequestString" d = Some v ->
      is_str v = false ->
      normalize line = Raise TypeError) /\
  (forall line d s n,
      json_loads line = Some (PDict d) ->
      dict_lookup "bidRequestString" d = Some (PStr s) ->
      json_loads s = Some n ->
      is_dict n = false ->
      normalize line = Raise AttributeError).
Proof.
  split.
  - intros line d v Hl Hb Hv.
    assert (Hnest : nested_document (PDict d) = Raise TypeError).
    { unfold nested_document, py_get. rewrite Hb. cbn [bind].
      destruct v; try reflexivity. discriminate. }
    rewrite (normalize_object _ _ Hl). cbv zeta. gets. now rewrite Hnest.
  - intros line d s n Hl Hb Hs Hn.
    assert (Hnest : nested_document (PDict d) = Ok n).
    { unfold nested_document, py_get, loads. rewrite Hb. cbn [bind]. now rewrite Hs. }
    rewrite (normalize_object _ _ Hl). cbv zeta. gets. rewrite Hnest. cbn [bind].
    now rewrite (py_get_not_dict n _ _ Hn).
Qed.

(** X8: a winPrice that is not a string (a JSON number, say) raises
    AttributeError, which is not caught. *)
Theorem win_price_must_be_a_string (line : string) (d n : dict) (g w : pyval) :
  json_loads line = Some (PDict d) ->
  nested_document (PDict d) = Ok (PDict n) ->
  resolve_geo (PDict n) = Ok g ->
  dict_lookup "winPrice" d = Some w ->
  is_str w = false ->
  normalize line = Raise AttributeError.
Proof.
  intros Hl Hnest Hg Hw Hs.
  assert (Hp : parse_price (PDict d) = Raise AttributeError).
  { unfold parse_price, py_get. rewrite Hw. cbn [bind].
    destruct w; try reflexivity. discriminate. }
  rewrite (normalize_object _ _ Hl). cbv zeta. gets.
  rewrite Hnest. cbn [bind]. gets. rewrite Hg. cbn [bind]. gets.
  now rewrite Hp.
Qed.

(** X9: a timestamp that is false as a condition (null, false, 0, the empty
    string, an empty array or object) counts as absent and gives time 0
    without any parsing; one that is true and not a string (a number of
    seconds, say) raises TypeError. *)
Theorem timestamp_false_or_not_a_string :
  (forall line d n g p,
      json_loads line = Some (PDict d) ->
      nested_document (PDict d) = Ok (PDict n) ->
      resolve_geo (PDict n) = Ok g ->
      parse_price (PDict d) = Ok p ->
      truthy (get_or n "timestamp" PNone) = false ->
      exists doc,
        normalize line = Ok doc /\ dict_lookup "time" doc = Some (PInt 0)) /\
  (forall line d n g p t,
      json_loads line = Some (PDict d) ->
      nested_document (PDict d) = Ok (PDict n) ->
      resolve_geo (PDict n) = Ok g ->
      parse_price (PDict d) = Ok p ->
      dict_lookup "timestamp" n = Some t ->
      truthy t = true ->
      is_str t = false ->
      normalize line = Raise TypeError).
Proof.
  split.
  - intros line d n g p Hl Hnest Hg Hp Ht.
    assert (Htime : parse_time (PDict n) = Ok 0).
    { unfold parse_time, py_get. unfold get_or in Ht.
      destruct (dict_lookup "timestamp" n); cbn [bind]; now rewrite Ht. }
    rewrite (normalize_object _ _ Hl). cbv zeta. gets.
    rewrite Hnest. cbn [bind]. gets. rewrite Hg. cbn [bind]. gets.
    rewrite Hp. cbn [bind]. rewrite Htime. cbn [bind].
    eexists. split; reflexivity.
  - intros line d n g p t Hl Hnest Hg Hp Ht Htrue Hs.
    assert (Htime : parse_time (PDict n) = Raise TypeError).
    { unfold parse_time, py_get. rewrite Ht. cbn [bind]. rewrite Htrue.
      destruct t; try reflexivity. discriminate. }
    rewrite (normalize_object _ _ Hl). cbv zeta. gets.
    rewrite Hnest. cbn [bind]. gets. rewrite Hg. cbn [bind]. gets.
    rewrite Hp. cbn [bind]. now rewrite Htime.
Qed.

Lemma resolve_geo_raises_normalize (line : string) (d n : dict) (e : exn) :
  json_loads line = Some (PDict d) ->
  nested_document (PDict d) = Ok (PDict n) ->
  resolve_geo (PDict n) = Raise e ->
  normalize line = Raise e.
Proof.
  intros Hl Hnest Hg.
  rewrite (normalize_object _ _ Hl). cbv zeta. gets.
  rewrite Hnest. cbn [bind]. gets. now rewrite Hg.
Qed.

(** X10: a device that is present and not an object (null, say), or a
    device.geo that is not an object, raises AttributeError; so does a
    device.ext that is not an object, but only when the country is absent
    or is Others. *)
Theorem geo_path_must_be_objects :
  (forall line d n v,
      json_loads line = Some (PDict d) ->
      nested_document (PDict d) = Ok (PDict n) ->
      dict_lookup "device" n = Some v ->
      is_dict v = false ->
      normalize line = Raise AttributeError) /\
  (forall line d n dev v,
      json_loads line = Some (PDict d) ->
      nested_document (PDict d) = Ok (PDict n) ->
      dict_lookup "device" n = Some (PDict dev) ->
      dict_lookup "geo" dev = Some v ->
      is_dict v = false ->
      normalize line = Raise AttributeError) /\
  (forall line d n dev first v,
      json_loads line = Some (PDict d) ->
      nested_document (PDict d) = Ok (PDict n) ->
      dict_lookup "device" n = Some (PDict dev) ->
      get3 (PDict n) "device" "geo" "country" (PStr "Others") = Ok first ->
      eq_str first "Others" = true ->
      dict_lookup "ext" dev = Some v ->
      is_dict v = false ->
      normalize line = Raise AttributeError).
Proof.
  split; [|split].
  - intros line d n v Hl Hnest Hdev Hv.
    apply (resolve_geo_raises_normalize line d n); try assumption.
    unfold resolve_geo, get3. unfold py_get at 1. rewrite Hdev. cbn [bind].
    now rewrite (py_get_not_dict v _ _ Hv).
  - intros line d n dev v Hl Hnest Hdev Hgeo Hv.
    apply (resolve_geo_raises_normalize line d n); try assumption.
    unfold resolve_geo, get3. unfold py_get at 1. rewrite Hdev. cbn [bind].
    unfold py_get at 1. rewrite Hgeo. cbn [bind].
    now rewrite (py_get_not_dict v _ _ Hv).
  - intros line d n dev first v Hl Hnest Hdev Hfirst Heq Hext Hv.
    apply (resolve_geo_raises_normalize line d n); try assumption.
    unfold resolve_geo. rewrite Hfirst. cbn [bind]. rewrite Heq.
    unfold get3. unfold py_get at 1. rewrite Hdev. cbn [bind].
    unfold py_get at 1. rewrite Hext. cbn [bind].
    now rewrite (py_get_not_dict v _ _ Hv).
Qed.

Ltac step H :=
  match type of H with
  | bind ?m _ = Ok _ =>
      let a := fresh "v" in
      let Ha := fresh "Hv" in
      destruct m as [a|] eqn:Ha; simpl in H; [|discriminate H]
  end.

Lemma py_get_ok (v x : pyval) (k : string) (default : pyval) :
  py_get v k default = Ok x ->
  exists d, v = PDict d /\ x = get_or d k default.
Proof.
  destruct v; simpl; try discriminate. intros H. exists d. split; [reflexivity|].
  unfold get_or. destruct (dict_lookup k d); congruence.
Qed.

(** X11: the seven plain fields are copied as they are: a key that is
    present gives its value whatever it is (null and numbers included), and
    only an absent key gives the default. *)
Theorem plain_fields_are_copied (line : string) (doc : dict) :
  normalize line = Ok doc ->
  exists d n,
    json_loads line = Some (PDict d) /\
    nested_document (PDict d) = Ok (PDict n) /\
    dict_lookup "auctionId" doc = Some (get_or d "auctionId" (PStr "NA")) /\
    dict_lookup "campaignId" doc = Some (get_or d "biddingMainAccount" (PStr "NA")) /\
    dict_lookup "creativeId" doc
    = Some (get_or d "bidResponseCreativeName" (PStr "NA")) /\
    dict_lookup "adgroupId" doc = Some (get_or d "biddingSubAccount" (PStr "NA")) /\
    dict_lookup "userAgent" doc = Some (get_or n "userAgent" (PStr "Others")) /\
    dict_lookup "site" doc = Some (get_or n "url" (PStr "Others")) /\
    dict_lookup "exchange" doc = Some (get_or n "exchange" (PStr "Others")).
Proof.
  unfold normalize. intros H. do 12 step H. injection H as <-.
  unfold loads in Hv. destruct (json_loads line) as [data|]; [|discriminate].
  injection Hv as ->.
  destruct (py_get_ok _ _ _ _ Hv0) as (d & -> & ->).
  destruct (py_get_ok _ _ _ _ Hv1) as (d1 & E1 & ->). injection E1 as <-.
  destruct (py_get_ok _ _ _ _ Hv2) as (d2 & E2 & ->). injection E2 as <-.
  destruct (py_get_ok _ _ _ _ Hv3) as (d3 & E3 & ->). injection E3 as <-.
  destruct (py_get_ok _ _ _ _ Hv5) as (n & -> & ->).
  destruct (py_get_ok _ _ _ _ Hv6) as (n1 & E4 & ->). injection E4 as <-.
  destruct (py_get_ok _ _ _ _ Hv8) as (n2 & E5 & ->). injection E5 as <-.
  exists d, n. repeat split; assumption.
Qed.

End TypeFailures.

(** * The price string *)

Lemma prefix_app (old s : string) : String.prefix old (old ++ s)%string = true.
Proof.
  induction old as [|a old IH]; simpl.
  - now destruct s.
  - destruct (ascii_dec a a); [assumption | congruence].
Qed.

Lemma remove_all_from_skip (old x s : string) :
  remove_all_from old (String.length x) (x ++ s)%string = remove_all_from old O s.
Proof.
  induction x as [|a x IH]; simpl.
  - now destruct s.
  - assumption.
Qed.

(** An occurrence at the front is removed. *)
Lemma str_remove_head (c : ascii) (t s : string) :
  str_remove (String c t) (String c t ++ s)%string = str_remove (String c t) s.
Proof.
  unfold str_remove.
  change (String c t ++ s)%string with (String c (t ++ s)%string).
  cbn [remove_all_from].
  change (String c (t ++ s)%string) with (String c t ++ s)%string.
  rewrite prefix_app. cbn [String.length].
  rewrite Nat.sub_1_r. cbn [Nat.pred]. apply remove_all_from_skip.
Qed.

(** A stretch without the first character of [old] is kept. *)
Lemma str_remove_keeps (c : ascii) (t a s : string) :
  occurs c a = false ->
  str_remove (String c t) (a ++ s)%string = (a ++ str_remove (String c t) s)%string.
Proof.
  unfold str_remove. induction a as [|x a IH]; intros Hocc.
  - reflexivity.
  - simpl in Hocc. apply orb_false_iff in Hocc. destruct Hocc as [Hx Ha].
    change (String x a ++ s)%string with (String x (a ++ s)%string).
    cbn [remove_all_from String.prefix].
    destruct (ascii_dec c x) as [->|_].
    + rewrite Ascii.eqb_refl in Hx. discriminate.
    + simpl. now rewrite (IH Ha).
Qed.

Section PriceString.
Context {R : Runtime}.

(** X12: every USD/1M in the win price is removed, wherever it stands and
    not only at the end: for text [a] and [b] without the letter U, the
    price of [a USD/1M b] is the number that [a b] spells, or ValueError
    when that is no number. *)
Theorem unit_is_removed_anywhere (d : dict) (a b : string) :
  dict_lookup "winPrice" d = Some (PStr (a ++ "USD/1M" ++ b)%string) ->
  occurs "U" a = false ->
  occurs "U" b = false ->
  str_remove "USD/1M" (a ++ "USD/1M" ++ b)%string = (a ++ b)%string /\
  parse_price (PDict d) =
  match float_of_str (a ++ b)%string with
  | Some f => Ok f
  | None => Raise ValueError
  end.
Proof.
  intros Hw Ha Hb.
  assert (Hs : str_remove "USD/1M" (a ++ "USD/1M" ++ b)%string = (a ++ b)%string).
  { rewrite (str_remove_keeps "U" "SD/1M" a _ Ha).
    rewrite (str_remove_head "U" "SD/1M" b).
    pose proof (str_remove_keeps "U" "SD/1M" b "" Hb) as Hk.
    assert (Hnil : forall s : string, (s ++ "")%string = s).
    { induction s as [|x s IH]; simpl; [reflexivity | now rewrite IH]. }
    rewrite !Hnil in Hk. now rewrite Hk. }
  split; [assumption|].
  unfold parse_price, py_get. rewrite Hw. cbn [bind]. now rewrite Hs.
Qed.

End PriceString.

(** * Further properties of the aggregation *)

Lemma group_sizes_insert (k : composite_key) (p : float)
    (groups : list (composite_key * list float)) :
  total_count (map bucket_of (group_insert k p groups))
  = total_count (map bucket_of groups) + 1.
Proof.
  induction groups as [|[k0 ps] groups IH]; simpl.
  - reflexivity.
  - destruct (same_key k0 k); simpl.
    + rewrite length_app. simpl. lia.
    + rewrite IH. lia.
Qed.

(** X13: the counts of the buckets add up to the number of documents
    aggregated: every document is counted in exactly one bucket. *)
Theorem counts_add_up (source : list NormalizedWinRecord) :
  total_count (aggregate source) = Z.of_nat (List.length source).
Proof.
  unfold aggregate.
  induction source as [|d source IH] using rev_ind.
  - reflexivity.
  - rewrite group_stage_snoc, group_sizes_insert, IH, length_app. simpl. lia.
Qed.

(** ** What a merge keeps *)

Lemma new_keys_spec (ks : list composite_key) :
  forall seen,
    NoDup (new_keys seen ks) /\
    forall k, In k (new_keys seen ks) <-> In k ks /\ ~ In k seen.
Proof.
  induction ks as [|k0 ks IH]; intros seen; simpl.
  - split; [constructor|]. tauto.
  - destruct (in_dec key_eq_dec k0 seen) as [Hin|Hnin].
    + destruct (IH seen) as [Hnd Hiff]. split; [assumption|].
      intros k. rewrite Hiff. split; [tauto|].
      intros [[<-|Hk] Hn]; [contradiction|tauto].
    + destruct (IH (seen ++ [k0])) as [Hnd Hiff]. split.
      * constructor; [|assumption]. rewrite Hiff, in_app_iff. simpl. tauto.
      * intros k. simpl. rewrite Hiff, in_app_iff. simpl.
        destruct (key_eq_dec k0 k) as [->|Hne]; tauto.
Qed.

Lemma new_keys_all (ks : list composite_key) :
  forall seen,
    NoDup ks -> (forall k, In k ks -> ~ In k seen) -> new_keys seen ks = ks.
Proof.
  induction ks as [|k0 ks IH]; intros seen Hnd Hdis; simpl; [reflexivity|].
  inversion Hnd as [|? ? Hnotin Hnd']; subst.
  destruct (in_dec key_eq_dec k0 seen) as [Hin|_].
  - exfalso. apply (Hdis k0); simpl; auto.
  - f_equal. apply IH; [assumption|].
    intros k Hk Hin. apply in_app_iff in Hin. destruct Hin as [Hin|[<-|[]]].
    + apply (Hdis k); simpl; auto.
    + contradiction.
Qed.

Lemma new_keys_app (seen l1 l2 : list composite_key) :
  (forall k, In k l1 -> In k seen) ->
  new_keys seen (l1 ++ l2) = new_keys seen l2.
Proof.
  induction l1 as [|k l1 IH]; intros H; simpl; [reflexivity|].
  destruct (in_dec key_eq_dec k seen) as [_|Hn].
  - apply IH. intros k' Hk'. apply H. simpl. auto.
  - exfalso. apply Hn, H. simpl. auto.
Qed.

Lemma update_first_keys (k : composite_key) (s : SetFields)
    (c : list AggregateBucket) :
  match update_first k s c with
  | Some c' => map bucket_key c' = map bucket_key c /\ In k (map bucket_key c)
  | None => ~ In k (map bucket_key c)
  end.
Proof.
  induction c as [|d rest IH]; simpl; [tauto|].
  destruct (key_eq_dec (bucket_key d) k) as [e|ne]; simpl.
  - auto.
  - destruct (update_first k s rest); simpl.
    + destruct IH as [IH1 IH2]. rewrite IH1. auto.
    + tauto.
Qed.

Lemma update_one_keys (b : AggregateBucket) (c : list AggregateBucket) :
  map bucket_key (update_one (upsert_of b) c) =
  map bucket_key c ++ new_keys (map bucket_key c) [bucket_key b].
Proof.
  unfold update_one.
  pose proof (update_first_keys (filter_query (upsert_of b))
                (update_query (upsert_of b)) c) as H.
  destruct (update_first (filter_query (upsert_of b)) (update_query (upsert_of b)) c);
    simpl in *; destruct (in_dec key_eq_dec (bucket_key b) (map bucket_key c));
    try tauto.
  - destruct H as [-> _]. now rewrite app_nil_r.
  - rewrite map_app. reflexivity.
Qed.

(** The keys after a merge: those of the collection, in place, then the
    keys the collection did not have. *)
Lemma merge_keys (buckets : list AggregateBucket) :
  forall c,
    map bucket_key (merge buckets c) =
    map bucket_key c ++ new_keys (map bucket_key c) (map bucket_key buckets).
Proof.
  induction buckets as [|b buckets IH]; intros c.
  - simpl. now rewrite app_nil_r.
  - rewrite merge_bulk_write. simpl.
    change (bulk_write (upsert_of b :: map upsert_of buckets) c)
      with (bulk_write (map upsert_of buckets) (update_one (upsert_of b) c)).
    rewrite <- merge_bulk_write, IH, update_one_keys. simpl.
    destruct (in_dec key_eq_dec (bucket_key b) (map bucket_key c)).
    + now rewrite app_nil_r.
    + now rewrite <- app_assoc.
Qed.

(** X14: aggregate_and_upsert never removes or moves a document of the
    aggregate collection: the keys it had stay in place; what is added comes
    at the end, at most one document per bucket, each under the key of a
    bucket, a key the collection did not have; and the documents of a key
    that is the key of no document of the raw collection, as the store
    tells keys apart, stay as they are. *)
Theorem aggregate_and_upsert_never_removes (source : list NormalizedWinRecord)
    (target : list AggregateBucket) :
  (exists added,
      map bucket_key (aggregate_and_upsert source target)
      = map bucket_key target ++ added /\
      NoDup added /\
      (List.length added <= List.length (aggregate source))%nat /\
      forall k, In k added ->
                In k (map bucket_key (aggregate source)) /\
                In k (map group_key source) /\
                ~ In k (map bucket_key target)) /\
  (forall k,
      (forall d, In d source -> same_key (group_key d) k = false) ->
      records_for k (aggregate_and_upsert source target) = records_for k target).
Proof.
  assert (Hrep : forall k, In k (map bucket_key (aggregate source)) ->
                           In k (map group_key source)).
  { intros k Hk. apply in_map_iff in Hk. destruct Hk as (b & <- & Hb).
    now apply aggregate_bucket. }
  unfold aggregate_and_upsert. split.
  - exists (new_keys (map bucket_key target) (map bucket_key (aggregate source))).
    split; [apply merge_keys|].
    destruct (new_keys_spec (map bucket_key (aggregate source))
                (map bucket_key target)) as [Hnd Hiff].
    split; [assumption|]. split.
    + rewrite <- (length_map bucket_key (aggregate source)).
      apply NoDup_incl_length; [assumption|].
      intros k Hk. now apply Hiff in Hk.
    + intros k Hk. apply Hiff in Hk. destruct Hk as [Hk Hn]. auto.
  - intros k Hk. apply merge_records_other. intros Hin.
    apply Hrep, in_map_iff in Hin. destruct Hin as (d & E & Hd).
    specialize (Hk d Hd). rewrite E, same_key_refl in Hk. discriminate.
Qed.


(** ** Runs that build on each other *)

Lemma records_for_absent (k : composite_key) (l : list AggregateBucket) :
  ~ In k (map bucket_key l) -> records_for k l = [].
Proof.
  induction l as [|a l IH]; simpl; intros H; [reflexivity|].
  rewrite key_eqb_neq by tauto. apply IH. tauto.
Qed.

Lemma records_for_unique (l : list AggregateBucket) (b : AggregateBucket) :
  NoDup (map bucket_key l) -> In b l -> records_for (bucket_key b) l = [b].
Proof.
  induction l as [|a l IH]; simpl; intros Hnd Hin; [contradiction|].
  inversion Hnd as [|? ? Hnotin Hnd']; subst.
  destruct Hin as [->|Hin].
  - rewrite key_eqb_refl. f_equal. now apply records_for_absent.
  - rewrite key_eqb_neq; [now apply IH|].
    intros E. apply Hnotin. rewrite E. now apply in_map.
Qed.

(** Two collections with the same keys in the same order, each key once,
    and the same documents for every key, are equal. *)
Lemma equal_by_keys (l1 : list AggregateBucket) :
  forall l2,
    map bucket_key l1 = map bucket_key l2 ->
    NoDup (map bucket_key l1) ->
    (forall k, records_for k l1 = records_for k l2) ->
    l1 = l2.
Proof.
  induction l1 as [|a l1 IH]; intros [|b l2] Hk Hnd Hrec; simpl in Hk;
    try discriminate; [reflexivity|].
  injection Hk as Hab Hk.
  inversion Hnd as [|? ? Hnotin Hnd']; subst.
  pose proof (Hrec (bucket_key a)) as Ha. simpl in Ha.
  rewrite <- Hab, key_eqb_refl in Ha.
  rewrite (records_for_absent _ l1 Hnotin) in Ha.
  rewrite Hk in Hnotin. rewrite (records_for_absent _ l2 Hnotin) in Ha.
  injection Ha as <-. f_equal.
  apply IH; [assumption | assumption |].
  intros k. destruct (key_eq_dec (bucket_key a) k) as [<-|Hne].
  - rewrite (records_for_absent _ l2 Hnotin).
    apply records_for_absent. now rewrite Hk.
  - specialize (Hrec k). simpl in Hrec.
    now rewrite (key_eqb_neq _ _ Hne) in Hrec.
Qed.

(** Merging buckets, each key once, into a collection that holds each key
    once and no key the buckets do not have, leaves for every key the
    documents the buckets have for it. *)
Lemma merge_records_within (buckets c : list AggregateBucket) :
  NoDup (map bucket_key buckets) ->
  NoDup (map bucket_key c) ->
  (forall k, In k (map bucket_key c) -> In k (map bucket_key buckets)) ->
  forall k, records_for k (merge buckets c) = records_for k buckets.
Proof.
  intros Hnd Hc Hsub k.
  destruct (in_dec key_eq_dec k (map bucket_key buckets)) as [Hin|Hnin].
  - apply in_map_iff in Hin. destruct Hin as (b & <- & Hb).
    rewrite (merge_records buckets b Hnd Hb c).
    rewrite (records_for_unique buckets b Hnd Hb).
    destruct (records_for (bucket_key b) c) as [|x [|y rest]] eqn:E; try reflexivity.
    exfalso.
    assert (Hx : In x (records_for (bucket_key b) c)) by (rewrite E; simpl; auto).
    apply filter_In in Hx. destruct Hx as [Hx Hkx]. apply key_eqb_true in Hkx.
    pose proof (records_for_unique c x Hc Hx) as Hu.
    rewrite Hkx, E in Hu. discriminate.
  - rewrite merge_records_other by assumption.
    rewrite (records_for_absent k buckets Hnin).
    apply records_for_absent. auto.
Qed.

(** Merging buckets, each key once, into a collection that holds each key
    once and whose keys are the first keys of the buckets, gives the
    buckets. *)
Lemma merge_onto_prefix (buckets c : list AggregateBucket)
    (ks : list composite_key) :
  NoDup (map bucket_key buckets) ->
  NoDup (map bucket_key c) ->
  map bucket_key buckets = map bucket_key c ++ ks ->
  merge buckets c = buckets.
Proof.
  intros Hnd Hc Hks.
  assert (Hsub : forall k, In k (map bucket_key c) -> In k (map bucket_key buckets)).
  { intros k Hk. rewrite Hks. apply in_app_iff. auto. }
  assert (Hkeys : map bucket_key (merge buckets c) = map bucket_key buckets).
  { rewrite merge_keys, Hks. f_equal.
    rewrite new_keys_app by auto.
    rewrite Hks in Hnd. apply new_keys_all.
    - now apply NoDup_app_remove_l in Hnd.
    - intros k Hk Hin. revert Hnd Hk Hin. clear.
      induction (map bucket_key c) as [|x l IH]; simpl; intros Hnd Hk Hin;
        [contradiction|].
      inversion Hnd as [|? ? Hnotin Hnd']; subst.
      destruct Hin as [->|Hin]; [|auto].
      apply Hnotin. apply in_app_iff. auto. }
  apply equal_by_keys; [assumption | now rewrite Hkeys |].
  now apply merge_records_within.
Qed.

(** Merging buckets, each key once, into an empty collection gives the
    buckets, in their order. *)
Lemma merge_into_empty (buckets : list AggregateBucket) :
  NoDup (map bucket_key buckets) -> merge buckets [] = buckets.
Proof.
  intros Hnd. apply (merge_onto_prefix _ [] (map bucket_key buckets)).
  - assumption.
  - constructor.
  - reflexivity.
Qed.

Lemma merge_onto_empty (source : list NormalizedWinRecord) :
  merge (aggregate source) [] = aggregate source.
Proof. apply merge_into_empty, aggregate_keys_nodup. Qed.

(** The keys after a merge are each there once when those of the collection
    were. *)
Lemma merge_keys_nodup (buckets c : list AggregateBucket) :
  NoDup (map bucket_key c) -> NoDup (map bucket_key (merge buckets c)).
Proof.
  intros Hc. rewrite merge_keys.
  destruct (new_keys_spec (map bucket_key buckets) (map bucket_key c))
    as [Hnd Hiff].
  set (l := map bucket_key c) in *.
  set (l' := new_keys l (map bucket_key buckets)) in *.
  assert (Hdis : forall k, In k l -> ~ In k l').
  { intros k Hk Hk'. apply Hiff in Hk'. tauto. }
  clearbody l l'. clear Hiff.
  induction l as [|x l IH]; simpl; [assumption|].
  inversion Hc as [|? ? Hnotin Hc']; subst. constructor.
  - rewrite in_app_iff. intros [H|H]; [contradiction|].
    apply (Hdis x); simpl; auto.
  - apply IH; [assumption|]. intros k Hk. apply Hdis. simpl. auto.
Qed.

Lemma records_for_in (l : list AggregateBucket) (b : AggregateBucket) :
  In b l <-> In b (records_for (bucket_key b) l).
Proof.
  unfold records_for. rewrite filter_In, key_eqb_refl. tauto.
Qed.

(** Merging buckets, each key once, into a collection that holds each key
    once and no key the buckets do not have, gives the buckets, in another
    order at most. *)
Lemma merge_within_permutation (buckets c : list AggregateBucket) :
  NoDup (map bucket_key buckets) ->
  NoDup (map bucket_key c) ->
  (forall k, In k (map bucket_key c) -> In k (map bucket_key buckets)) ->
  Permutation (merge buckets c) buckets.
Proof.
  intros Hnd Hc Hsub. apply NoDup_Permutation.
  - apply (NoDup_map_inv bucket_key). now apply merge_keys_nodup.
  - now apply (NoDup_map_inv bucket_key).
  - intros b.
    rewrite (records_for_in (merge buckets c)), (records_for_in buckets).
    now rewrite merge_records_within.
Qed.

(** The groups of a collection that has grown: those there were, under
    their keys and in their places, then new ones. *)
Lemma group_stage_app_prefix (s s' : list NormalizedWinRecord) :
  exists extra,
    map fst (group_stage (s ++ s')) = map fst (group_stage s) ++ extra.
Proof.
  induction s' as [|d s' [extra IH]] using rev_ind.
  - exists []. now rewrite !app_nil_r.
  - rewrite app_assoc, group_stage_snoc, group_insert_keys, IH.
    destruct (known (group_key d) (map fst (group_stage s) ++ extra)).
    + now exists extra.
    + exists (extra ++ [group_key d]). now rewrite app_assoc.
Qed.

(** Documents whose keys have their groups open no group. *)
Lemma group_stage_known_keys (s s' : list NormalizedWinRecord) :
  (forall d, In d s' -> known (group_key d) (map fst (group_stage s)) = true) ->
  map fst (group_stage (s ++ s')) = map fst (group_stage s).
Proof.
  induction s' as [|d s' IH] using rev_ind; intros H.
  - now rewrite app_nil_r.
  - assert (IH' : map fst (group_stage (s ++ s')) = map fst (group_stage s)).
    { apply IH. intros x Hx. apply H, in_app_iff. auto. }
    rewrite app_assoc, group_stage_snoc, group_insert_keys, IH'.
    rewrite H; [reflexivity|]. apply in_app_iff. simpl. auto.
Qed.

(** X16: run on an empty aggregate collection, the upsert leaves exactly
    the buckets of the reply, in the order of the reply; and when the raw
    collection has grown since, a new run over what that run left gives the
    documents that a first run on the grown raw collection gives, each
    once, in another order at most. This holds whatever order the store
    returns the buckets in, on either run. *)
Theorem rerun_after_growth_equals_first_run (s s' : list NormalizedWinRecord)
    (first second : list AggregateBucket) :
  Permutation first (aggregate s) ->
  Permutation second (aggregate (s ++ s')) ->
  merge first [] = first /\
  merge second [] = second /\
  Permutation (merge second (merge first [])) (merge second []) /\
  Permutation (aggregate_and_upsert (s ++ s') (aggregate_and_upsert s []))
              (aggregate_and_upsert (s ++ s') []).
Proof.
  assert (Hsub : forall k, In k (map bucket_key (aggregate s)) ->
                           In k (map bucket_key (aggregate (s ++ s')))).
  { intros k. rewrite !aggregate_keys.
    destruct (group_stage_app_prefix s s') as [extra ->].
    rewrite in_app_iff. auto. }
  assert (Hgen : forall r1 r2,
             Permutation r1 (aggregate s) ->
             Permutation r2 (aggregate (s ++ s')) ->
             merge r1 [] = r1 /\ merge r2 [] = r2 /\
             Permutation (merge r2 (merge r1 [])) (merge r2 [])).
  { intros r1 r2 H1 H2.
    assert (N1 : NoDup (map bucket_key r1)).
    { apply (Permutation_NoDup (l := map bucket_key (aggregate s))).
      - apply Permutation_sym, Permutation_map, H1.
      - apply aggregate_keys_nodup. }
    assert (N2 : NoDup (map bucket_key r2)).
    { apply (Permutation_NoDup (l := map bucket_key (aggregate (s ++ s')))).
      - apply Permutation_sym, Permutation_map, H2.
      - apply aggregate_keys_nodup. }
    rewrite (merge_into_empty r1 N1), (merge_into_empty r2 N2).
    repeat split.
    apply merge_within_permutation; [assumption | assumption |].
    intros k Hk.
    apply (Permutation_in k (Permutation_map bucket_key H1)) in Hk.
    apply Hsub in Hk.
    apply (Permutation_in k (Permutation_sym (Permutation_map bucket_key H2))).
    exact Hk. }
  intros H1 H2.
  destruct (Hgen first second H1 H2) as (G1 & G2 & G3).
  destruct (Hgen (aggregate s) (aggregate (s ++ s'))
              (Permutation_refl _) (Permutation_refl _)) as (_ & _ & G4).
  repeat split; assumption.
Qed.

(** ** Documents ingested twice *)

Lemma fold_min_absorbs (l : list float) (m : float) :
  (forall x, In x l -> float_leb m x = true) -> fold_left float_min l m = m.
Proof.
  induction l as [|x l IH]; intros H; simpl; [reflexivity|].
  unfold float_min at 2. rewrite (H x) by (simpl; auto).
  apply IH. intros y Hy. apply H. simpl. auto.
Qed.

Lemma fold_max_absorbs (l : list float) (m : float) :
  (forall x, In x l -> float_leb x m = true) -> fold_left float_max l m = m.
Proof.
  induction l as [|x l IH]; intros H; simpl; [reflexivity|].
  unfold float_max at 2. rewrite (H x) by (simpl; auto).
  apply IH. intros y Hy. apply H. simpl. auto.
Qed.

Lemma price_min_twice (ps : list float) : price_min (ps ++ ps) = price_min ps.
Proof.
  destruct ps as [|p rest]; [reflexivity|].
  simpl. rewrite fold_left_app. apply fold_min_absorbs.
  apply (proj2 (fold_min_least rest p)).
Qed.

Lemma price_max_twice (ps : list float) : price_max (ps ++ ps) = price_max ps.
Proof.
  destruct ps as [|p rest]; [reflexivity|].
  simpl. rewrite fold_left_app. apply fold_max_absorbs.
  apply (proj2 (fold_max_greatest rest p)).
Qed.

(** X17: when every document of the raw collection is there twice (a unit
    ingested a second time), the aggregation has the same keys, and every
    bucket has twice the count, the same minimum and the same maximum. *)
Theorem documents_twice_double_the_counts (s : list NormalizedWinRecord) :
  map bucket_key (aggregate (s ++ s)) = map bucket_key (aggregate s) /\
  forall b2,
    In b2 (aggregate (s ++ s)) ->
    exists b,
      In b (aggregate s) /\
      bucket_key b = bucket_key b2 /\
      totalCount b2 = 2 * totalCount b /\
      minPrice b2 = minPrice b /\
      maxPrice b2 = maxPrice b.
Proof.
  assert (Hkeys : map bucket_key (aggregate (s ++ s)) = map bucket_key (aggregate s)).
  { rewrite !aggregate_keys. apply group_stage_known_keys.
    intros d Hd. apply known_spec.
    apply (proj1 (proj2 (group_stage_keys s))). now apply in_map, in_map. }
  split; [assumption|].
  intros b2 Hb2.
  assert (Hk : In (bucket_key b2) (map bucket_key (aggregate s))).
  { rewrite <- Hkeys. now apply in_map. }
  apply in_map_iff in Hk. destruct Hk as (b & Hkb & Hb).
  exists b. split; [assumption|]. split; [assumption|].
  destruct (aggregate_bucket _ _ Hb2) as [_ E2].
  destruct (aggregate_bucket _ _ Hb) as [_ E].
  rewrite Hkb in E.
  assert (Hps : prices_of (bucket_key b2) (s ++ s)
                = prices_of (bucket_key b2) s ++ prices_of (bucket_key b2) s).
  { unfold prices_of. now rewrite filter_app, map_app. }
  rewrite Hps in E2.
  pose proof (f_equal totalCount E2) as C2. pose proof (f_equal totalCount E) as C1.
  pose proof (f_equal minPrice E2) as L2. pose proof (f_equal minPrice E) as L1.
  pose proof (f_equal maxPrice E2) as G2. pose proof (f_equal maxPrice E) as G1.
  simpl in C2, C1, L2, L1, G2, G1.
  rewrite price_min_twice in L2. rewrite price_max_twice in G2.
  rewrite length_app in C2.
  repeat split; [lia | congruence | congruence].
Qed.

(** * Properties of the script *)

Section ScriptFacts.
Context {R : Runtime}.

Lemma ingest_files_app (pre post : list (list string)) :
  forall c,
    ingest_files (pre ++ post) c =
    match ingest_files pre c with
    | (c1, Ok _) => ingest_files post c1
    | (c1, Raise e) => (c1, Raise e)
    end.
Proof.
  induction pre as [|file pre IH]; intros c; simpl; [reflexivity|].
  destruct (parse_and_insert file c default_batch_size) as [c' [u|e]];
    [apply IH | reflexivity].
Qed.

(** X18: a file with fewer lines than the default batch size of 1000 is not
    ingested at all: when every file is that short the raw collection is
    left as it was, and the aggregation, if the script gets there, runs on
    the raw collection as it was. *)
Theorem short_files_are_not_ingested (files : list (list string))
    (c : raw_collection) (target : list AggregateBucket) :
  Forall (fun file => Z.of_nat (List.length file) < default_batch_size) files ->
  fst (ingest_files files c) = c /\
  (snd (ingest_files files c) = Ok tt ->
   main files c target
   = (c, aggregate_and_upsert (stored_records c) target, Ok tt)).
Proof.
  intros Hshort.
  assert (H : fst (ingest_files files c) = c).
  { induction Hshort as [|file files Hfile _ IH]; simpl; [reflexivity|].
    unfold parse_and_insert.
    pose proof (ingest_short default_batch_size file [] c) as Hs.
    simpl in Hs. specialize (Hs Hfile).
    destruct (ingest default_batch_size file [] c) as [[c1 d1] [u|e]];
      simpl in Hs; subst c1; [assumption | reflexivity]. }
  split; [assumption|].
  unfold main. destruct (ingest_files files c) as [c1 r]. simpl in *.
  intros ->. now subst c1.
Qed.

(** X19: an exception in one file ends the script: the files after it are
    not ingested, the aggregation does not run, and the aggregate collection
    is left as it was. *)
Theorem script_stops_at_first_exception (pre post : list (list string))
    (file : list string) (c c1 c2 : raw_collection) (e : exn)
    (target : list AggregateBucket) :
  ingest_files pre c = (c1, Ok tt) ->
  parse_and_insert file c1 default_batch_size = (c2, Raise e) ->
  ingest_files (pre ++ file :: post) c = (c2, Raise e) /\
  main (pre ++ file :: post) c target = (c2, target, Raise e).
Proof.
  intros Hpre Hfile.
  assert (H : ingest_files (pre ++ file :: post) c = (c2, Raise e)).
  { rewrite ingest_files_app, Hpre. simpl. now rewrite Hfile. }
  split; [assumption|]. unfold main. now rewrite H.
Qed.

Lemma parse_and_insert_wellformed (lines : list string) (c : raw_collection)
    (B : Z) :
  Forall wellformed (contents c) ->
  Forall wellformed (contents (fst (parse_and_insert lines c B))).
Proof.
  unfold parse_and_insert, contents. intros Hc.
  apply Forall_concat in Hc. apply Forall_concat.
  pose proof (ingest_preserves wellformed B normalize_wellformed
                lines [] c (Forall_nil _) Hc) as [H _].
  destruct (ingest B lines [] c) as [[c1 d1] r]. exact H.
Qed.

Lemma ingest_files_wellformed (files : list (list string)) :
  forall c,
    Forall wellformed (contents c) ->
    Forall wellformed (contents (fst (ingest_files files c))).
Proof.
  induction files as [|file files IH]; intros c Hc; simpl; [assumption|].
  pose proof (parse_and_insert_wellformed file c default_batch_size Hc) as H.
  destruct (parse_and_insert file c default_batch_size) as [c' [u|e]];
    simpl in H; [now apply IH | assumption].
Qed.

Lemma stored_records_length (c : raw_collection) :
  Forall wellformed (contents c) ->
  List.length (stored_records c) = List.length (contents c).
Proof.
  unfold stored_records. induction (contents c) as [|d l IH]; intros H; simpl.
  - reflexivity.
  - inversion H as [|? ? [_ [r Hr]] Hl]; subst.
    rewrite Hr. simpl. f_equal. now apply IH.
Qed.

(** X20: when the raw collection holds only documents with the ten fields
    and the aggregate collection starts empty, a script that runs to the end
    leaves as aggregate collection the buckets of the raw collection, and
    their counts add up to the number of documents in the raw collection. *)
Theorem script_counts_every_stored_document (files : list (list string))
    (c c' : raw_collection) (buckets : list AggregateBucket) :
  Forall wellformed (contents c) ->
  main files c [] = (c', buckets, Ok tt) ->
  buckets = aggregate (stored_records c') /\
  total_count buckets = Z.of_nat (List.length (contents c')).
Proof.
  intros Hc Hmain. unfold main in Hmain.
  pose proof (ingest_files_wellformed files c Hc) as Hw.
  destruct (ingest_files files c) as [c1 [u|e]]; [|discriminate].
  injection Hmain as <- <-. simpl in Hw.
  assert (Hb : aggregate_and_upsert (stored_records c1) [] = aggregate (stored_records c1)).
  { unfold aggregate_and_upsert. apply merge_onto_empty. }
  split; [assumption|].
  rewrite Hb. clear Hb.
  assert (Hcount : forall source, total_count (aggregate source)
                                  = Z.of_nat (List.length source)).
  { intros source. unfold aggregate.
    induction source as [|d source IH] using rev_ind; [reflexivity|].
    rewrite group_stage_snoc, group_sizes_insert, IH, length_app. simpl. lia. }
  rewrite Hcount. now rewrite (stored_records_length c1 Hw).
Qed.

End ScriptFacts.

(** * Runs on concrete input, with the reference runtime *)

Example run_line_empty :
  @normalize reference line_empty = Ok default_document.
Proof. vm_compute. reflexivity. Qed.

Example run_line_country :
  @normalize reference line_country =
  Ok [ ("auctionId", PStr "a1"); ("campaignId", PStr "NA");
       ("creativeId", PStr "NA"); ("adgroupId", PStr "NA");
       ("userAgent", PStr "Others"); ("site", PStr "Others");
       ("geo", PStr "VN"); ("exchange", PStr "Others");
       ("price", PFloat (S754_finite false 7036874417766400 (-49)));
       ("time", PInt 0) ].
Proof. vm_compute. reflexivity. Qed.

(** One line and the default batch size: nothing is written. *)
Example run_single_line :
  @parse_and_insert reference [line_empty] [] 1000 = ([], Ok tt).
Proof. vm_compute. reflexivity. Qed.

(** Three lines and a batch size of two: one call of two documents, the
    third document is lost. *)
Example run_three_lines :
  @parse_and_insert reference [line_empty; line_empty; line_empty] [] 2
  = ([[default_document; default_document]], Ok tt).
Proof. vm_compute. reflexivity. Qed.

(** A line that does not decode between two that do. *)
Example run_skips_undecodable :
  @parse_and_insert reference [line_empty; line_undecodable; line_empty] [] 2
  = ([[default_document; default_document]], Ok tt).
Proof. vm_compute. reflexivity. Qed.

(** A price that does not parse ends the call; the document buffered
    before it is not written. *)
Example run_bad_price :
  @parse_and_insert reference [line_empty; line_bad_price; line_empty] [] 2
  = ([], Raise ValueError).
Proof. vm_compute. reflexivity. Qed.

Lemma partial_batch_is_dropped_witness :
  exists chunks dropped,
    @parse_and_insert reference [line_empty; line_empty; line_empty] [] 2
    = ([] ++ chunks, Ok tt) /\
    List.concat chunks ++ dropped
    = [default_document; default_document; default_document] /\
    Forall (fun b => Z.of_nat (List.length b) = 2) chunks /\
    Z.of_nat (List.length chunks) = 3 / 2 /\
    Z.of_nat (List.length dropped) = 3 mod 2.
Proof.
  apply (partial_batch_is_dropped (R := reference) 2
           [line_empty; line_empty; line_empty]
           [default_document; default_document; default_document] []).
  - lia.
  - repeat (constructor; [vm_compute; reflexivity|]). constructor.
Defined.

Lemma geo_is_two_step_fallback_witness :
  exists doc,
    @normalize reference line_country = Ok doc /\
    dict_lookup "geo" doc = Some (PStr "VN") /\
    exists data nested,
      @json_loads reference line_country = Some data /\
      @nested_document reference data = Ok nested /\
      dict_lookup "geo" doc = Some (geo_fallback nested).
Proof.
  eexists. split; [vm_compute; reflexivity|]. split; [reflexivity|].
  apply (geo_is_two_step_fallback (R := reference) line_country).
  vm_compute. reflexivity.
Defined.

Lemma every_field_is_populated_witness :
  @normalize reference line_empty = Ok default_document /\
  keys default_document = ten_keys.
Proof.
  assert (H : @normalize reference line_empty = Ok default_document).
  { apply (proj1 (proj2 (every_field_is_populated (R := reference)))
             line_empty []); vm_compute; reflexivity. }
  split; [exact H|].
  apply (proj1 (every_field_is_populated (R := reference)) line_empty _ H).
Defined.

Lemma undecodable_line_is_skipped_witness :
  @json_loads reference line_undecodable = None /\
  @parse_and_insert reference ([line_empty] ++ line_undecodable :: [line_empty]) [] 2
  = @parse_and_insert reference ([line_empty] ++ [line_empty]) [] 2.
Proof.
  split; [vm_compute; reflexivity|].
  apply (undecodable_line_is_skipped (R := reference) 2 [line_empty] [line_empty]
           line_undecodable [] []).
  vm_compute. reflexivity.
Defined.

Lemma undecodable_nested_document_is_skipped_witness :
  @normalize reference line_undecodable_nested = Raise JSONDecodeError /\
  @parse_and_insert reference
     ([line_empty] ++ line_undecodable_nested :: [line_empty]) [] 2
  = @parse_and_insert reference ([line_empty] ++ [line_empty]) [] 2.
Proof.
  pose proof (undecodable_nested_document_is_skipped (R := reference) 2
                [line_empty] [line_empty] line_undecodable_nested
                [("bidRequestString", PStr "{oops")] "{oops" [] []) as H.
  destruct H as (H1 & _ & H3); try (vm_compute; reflexivity).
  split; assumption.
Defined.

Lemma malformed_nested_field_raises_witness :
  @normalize reference line_bad_price = Raise ValueError /\
  @normalize reference line_bad_timestamp = Raise ValueError /\
  @normalize reference line_bad_price_array_nested = Raise AttributeError /\
  @parse_and_insert reference ([line_empty] ++ line_bad_price :: [line_empty]) [] 2
  = ([], Raise ValueError).
Proof.
  assert (Hp : @unparseable_price reference line_bad_price).
  { exists [("winPrice", PStr "abcUSD/1M")], [], (PStr "Others"), "abcUSD/1M".
    repeat split; vm_compute; reflexivity. }
  assert (Ht : @unparseable_timestamp reference line_bad_timestamp).
  { exists [("bidRequestString", PStr (quoted "{'timestamp': 'yesterday'}"))],
           [("timestamp", PStr "yesterday")], (PStr "Others"), float_zero,
           "yesterday".
    repeat split; try (vm_compute; reflexivity). discriminate. }
  assert (Gp : (@malformed_price reference line_bad_price /\
                @nested_decodes reference line_bad_price) \/
               @malformed_timestamp reference line_bad_price).
  { left. split.
    - exists [("winPrice", PStr "abcUSD/1M")], "abcUSD/1M".
      repeat split; vm_compute; reflexivity.
    - intros d Hd.
      assert (E : d = [("winPrice", PStr "abcUSD/1M")])
        by (vm_compute in Hd; congruence).
      rewrite E. vm_compute. discriminate. }
  assert (Gt : (@malformed_price reference line_bad_timestamp /\
                @nested_decodes reference line_bad_timestamp) \/
               @malformed_timestamp reference line_bad_timestamp).
  { right.
    exists [("bidRequestString", PStr (quoted "{'timestamp': 'yesterday'}"))],
           [("timestamp", PStr "yesterday")], "yesterday".
    repeat split; try (vm_compute; reflexivity). discriminate. }
  assert (Ga : (@malformed_price reference line_bad_price_array_nested /\
                @nested_decodes reference line_bad_price_array_nested) \/
               @malformed_timestamp reference line_bad_price_array_nested).
  { left. split.
    - exists [("winPrice", PStr "abcUSD/1M"); ("bidRequestString", PStr "[]")],
             "abcUSD/1M".
      repeat split; vm_compute; reflexivity.
    - intros d Hd.
      assert (E : d = [("winPrice", PStr "abcUSD/1M");
                       ("bidRequestString", PStr "[]")])
        by (vm_compute in Hd; congruence).
      rewrite E. vm_compute. discriminate. }
  destruct (malformed_nested_field_raises (R := reference) line_bad_price Gp)
    as (e1 & _ & N1 & V1 & R1).
  destruct (malformed_nested_field_raises (R := reference) line_bad_timestamp Gt)
    as (e2 & _ & N2 & V2 & _).
  destruct (malformed_nested_field_raises (R := reference)
              line_bad_price_array_nested Ga) as (e3 & _ & N3 & _ & _).
  rewrite (V1 (or_introl Hp)) in N1, R1.
  rewrite (V2 (or_intror Ht)) in N2.
  split; [exact N1|]. split; [exact N2|]. split.
  - rewrite N3. f_equal.
    assert (E : @normalize reference line_bad_price_array_nested
                = Raise AttributeError) by (vm_compute; reflexivity).
    congruence.
  - apply (R1 2 [line_empty] [line_empty] [] [] [] [default_document]);
      [vm_compute|]; reflexivity.
Defined.

(** C9 as stated fails on two lines of its class. The first has a win
    price that is no number and a bidRequestString that does not decode:
    the nested document is decoded before the price is read, so the line is
    skipped and the run goes on. The second has a timestamp that is present
    and not in the format, the empty string: it is false, so the time
    defaults to 0 and the document is stored. *)
Lemma malformed_field_skipped_or_defaulted :
  (@json_loads reference line_bad_price_undecodable_nested
   = Some (PDict [("winPrice", PStr "abcUSD/1M");
                  ("bidRequestString", PStr "{oops")]) /\
   @float_of_str reference (str_remove "USD/1M" "abcUSD/1M") = None /\
   @normalize reference line_bad_price_undecodable_nested = Raise JSONDecodeError /\
   @parse_and_insert reference
     [line_empty; line_bad_price_undecodable_nested; line_empty] [] 2
   = ([[default_document; default_document]], Ok tt)) /\
  (@json_loads reference line_empty_timestamp
   = Some (PDict [("bidRequestString", PStr (quoted "{'timestamp': ''}"))]) /\
   @json_loads reference (quoted "{'timestamp': ''}")
   = Some (PDict [("timestamp", PStr "")]) /\
   @strptime_timestamp reference "" timestamp_format = None /\
   @normalize reference line_empty_timestamp = Ok default_document /\
   dict_lookup "time" default_document = Some (PInt 0) /\
   @parse_and_insert reference [line_empty_timestamp] [] 1
   = ([[default_document]], Ok tt)).
Proof. repeat split; vm_compute; reflexivity. Qed.

(** C8 as stated fails on the empty string: the envelope decodes, the
    bidRequestString is the empty string, and no document is produced; the
    line is skipped. *)
Lemma empty_nested_string_is_skipped :
  @json_loads reference line_empty_nested
  = Some (PDict [("bidRequestString", PStr "")]) /\
  @normalize reference line_empty_nested = Raise JSONDecodeError /\
  ~ (exists doc, @normalize reference line_empty_nested = Ok doc) /\
  @parse_and_insert reference [line_empty_nested] [] 1 = ([], Ok tt).
Proof.
  assert (H : @normalize reference line_empty_nested = Raise JSONDecodeError)
    by (vm_compute; reflexivity).
  repeat split; try (vm_compute; reflexivity).
  intros [doc Hdoc]. rewrite H in Hdoc. discriminate.
Qed.

Lemma absent_nested_document_defaults_witness :
  @nested_document reference (PDict []) = Ok (PDict []) /\
  (exists doc,
      @normalize reference line_empty = Ok doc /\
      dict_lookup "userAgent" doc = Some (PStr "Others") /\
      dict_lookup "site" doc = Some (PStr "Others") /\
      dict_lookup "exchange" doc = Some (PStr "Others")) /\
  @normalize reference line_empty_nested = Raise JSONDecodeError.
Proof.
  destruct (absent_nested_document_defaults (R := reference)) as [Habsent Hempty].
  destruct (Habsent line_empty [] float_zero) as [H1 H2];
    try (vm_compute; reflexivity).
  destruct (Hempty line_empty_nested [("bidRequestString", PStr "")]) as [_ H3];
    try (vm_compute; reflexivity).
  repeat split; assumption.
Defined.


(** * More runs on concrete input *)

Lemma short_unit_writes_nothing_witness :
  fst (@parse_and_insert reference [line_empty; line_country]
         [[default_document]] 3)
  = [[default_document]].
Proof.
  apply (short_unit_writes_nothing (R := reference) 3 [line_empty; line_country]
           [[default_document]]).
  vm_compute. reflexivity.
Defined.

Lemma batch_size_one_writes_every_document_witness :
  @parse_and_insert reference [line_empty; line_undecodable; line_empty] [] 1
  = ([] ++ map (fun d => [d])
             (@documents_of reference [line_empty; line_undecodable; line_empty]),
     @outcome_of reference [line_empty; line_undecodable; line_empty]) /\
  @documents_of reference [line_empty; line_undecodable; line_empty]
  = [default_document; default_document].
Proof.
  split; [|vm_compute; reflexivity].
  apply (batch_size_one_writes_every_document (R := reference) 1). lia.
Defined.

Lemma non_object_line_raises_witness :
  @normalize reference line_array = Raise AttributeError /\
  @parse_and_insert reference ([line_empty] ++ line_array :: [line_empty]) [] 1
  = ([[default_document]], Raise AttributeError).
Proof.
  destruct (non_object_line_raises (R := reference) line_array
              (PList [PInt 1; PInt 2])) as [H1 H2];
    try (vm_compute; reflexivity).
  split; [assumption|].
  apply (H2 1 [line_empty] [line_empty] [] [[default_document]] []).
  vm_compute. reflexivity.
Defined.

Lemma nested_document_must_be_an_encoded_object_witness :
  @normalize reference line_object_request = Raise TypeError /\
  @normalize reference line_array_request = Raise AttributeError.
Proof.
  destruct (nested_document_must_be_an_encoded_object (R := reference)) as [H1 H2].
  split.
  - apply (H1 line_object_request
              [("bidRequestString", PDict [("url", PStr "u")])]
              (PDict [("url", PStr "u")]));
      vm_compute; reflexivity.
  - apply (H2 line_array_request [("bidRequestString", PStr "[]")] "[]" (PList []));
      vm_compute; reflexivity.
Defined.

Lemma win_price_must_be_a_string_witness :
  @normalize reference line_numeric_price = Raise AttributeError.
Proof.
  apply (win_price_must_be_a_string (R := reference) line_numeric_price
           [("winPrice", PFloat (Reference.decimal_to_float false 125 (-1)))] []
           (PStr "Others") (PFloat (Reference.decimal_to_float false 125 (-1))));
    vm_compute; reflexivity.
Defined.

Lemma timestamp_false_or_not_a_string_witness :
  (exists doc,
      @normalize reference line_empty_timestamp = Ok doc /\
      dict_lookup "time" doc = Some (PInt 0)) /\
  @normalize reference line_numeric_timestamp = Raise TypeError.
Proof.
  destruct (timestamp_false_or_not_a_string (R := reference)) as [H1 H2].
  split.
  - apply (H1 line_empty_timestamp
              [("bidRequestString", PStr (quoted "{'timestamp': ''}"))]
              [("timestamp", PStr "")] (PStr "Others") float_zero);
      vm_compute; reflexivity.
  - apply (H2 line_numeric_timestamp
              [("bidRequestString", PStr (quoted "{'timestamp': 1484096370}"))]
              [("timestamp", PInt 1484096370)] (PStr "Others") float_zero
              (PInt 1484096370));
      vm_compute; reflexivity.
Defined.

Lemma geo_path_must_be_objects_witness :
  @normalize reference line_null_device = Raise AttributeError /\
  @normalize reference line_geo_number = Raise AttributeError /\
  @normalize reference line_ext_number = Raise AttributeError.
Proof.
  destruct (geo_path_must_be_objects (R := reference)) as (H1 & H2 & H3).
  split; [|split].
  - apply (H1 line_null_device
              [("bidRequestString", PStr (quoted "{'device': null}"))]
              [("device", PNone)] PNone);
      vm_compute; reflexivity.
  - apply (H2 line_geo_number
              [("bidRequestString", PStr (quoted "{'device': {'geo': 5}}"))]
              [("device", PDict [("geo", PInt 5)])] [("geo", PInt 5)] (PInt 5));
      vm_compute; reflexivity.
  - apply (H3 line_ext_number
              [("bidRequestString", PStr (quoted "{'device': {'ext': 5}}"))]
              [("device", PDict [("ext", PInt 5)])] [("ext", PInt 5)]
              (PStr "Others") (PInt 5));
      vm_compute; reflexivity.
Defined.

Lemma plain_fields_are_copied_witness :
  exists doc,
    @normalize reference line_null_fields = Ok doc /\
    dict_lookup "auctionId" doc = Some PNone /\
    dict_lookup "campaignId" doc = Some (PInt 7) /\
    dict_lookup "creativeId" doc = Some (PStr "NA").
Proof.
  eexists. split; [vm_compute; reflexivity|].
  destruct (plain_fields_are_copied (R := reference) line_null_fields _
              ltac:(vm_compute; reflexivity))
    as (d & n & Hd & _ & Ha & Hc & Hcr & _).
  vm_compute in Hd. injection Hd as <-.
  repeat split; assumption.
Defined.

Lemma unit_is_removed_anywhere_witness :
  str_remove "USD/1M" "12USD/1M5" = "125" /\
  @parse_price reference (PDict [("winPrice", PStr "12USD/1M5")])
  = Ok (S754_finite false 8796093022208000 (-46)).
Proof.
  destruct (unit_is_removed_anywhere (R := reference)
              [("winPrice", PStr "12USD/1M5")] "12" "5") as [H1 H2];
    try reflexivity.
  split; [exact H1|]. rewrite H2. vm_compute. reflexivity.
Defined.


Lemma rerun_after_growth_equals_first_run_witness :
  let s := [example_record "k" 10; example_record "k2" 5] in
  let s' := [example_record "k" 30; example_record "k3" 7] in
  let first := rev (aggregate s) in
  let second := rev (aggregate (s ++ s')) in
  Permutation first (aggregate s) /\
  Permutation second (aggregate (s ++ s')) /\
  merge first [] = first /\
  merge second [] = second /\
  Permutation (merge second (merge first [])) (merge second []) /\
  Permutation (aggregate_and_upsert (s ++ s') (aggregate_and_upsert s []))
              (aggregate_and_upsert (s ++ s') []).
Proof.
  intros s s' first second.
  assert (H1 : Permutation first (aggregate s))
    by apply Permutation_sym, Permutation_rev.
  assert (H2 : Permutation second (aggregate (s ++ s')))
    by apply Permutation_sym, Permutation_rev.
  split; [exact H1|]. split; [exact H2|].
  exact (rerun_after_growth_equals_first_run s s' first second H1 H2).
Defined.

Lemma short_files_are_not_ingested_witness :
  fst (@ingest_files reference [[line_empty; line_country]; [line_empty]] []) = [] /\
  @main reference [[line_empty; line_country]; [line_empty]] [] []
  = ([], [], Ok tt).
Proof.
  destruct (short_files_are_not_ingested (R := reference)
              [[line_empty; line_country]; [line_empty]] [] []) as [H1 H2].
  - repeat constructor.
  - split; [exact H1|]. rewrite H2; [reflexivity | vm_compute; reflexivity].
Defined.

Lemma script_stops_at_first_exception_witness :
  @main reference ([[line_empty]] ++ [line_bad_price] :: [[line_empty]]) []
    [example_bucket "k" 10 10 10 1]
  = ([], [example_bucket "k" 10 10 10 1], Raise ValueError).
Proof.
  apply (script_stops_at_first_exception (R := reference)
           [[line_empty]] [[line_empty]] [line_bad_price] [] [] [] ValueError);
    vm_compute; reflexivity.
Defined.


Lemma script_counts_every_stored_document_witness :
  total_count
    (snd (fst (@main reference [repeat line_empty 1000; [line_country]] [] [])))
  = 1000.
Proof.
  destruct (@main reference [repeat line_empty 1000; [line_country]] [] [])
    as [[c' buckets] r] eqn:E.
  assert (Hr : r = Ok tt).
  { change r with (snd (c', buckets, r)). rewrite <- E. vm_compute. reflexivity. }
  subst r.
  destruct (script_counts_every_stored_document (R := reference)
              [repeat line_empty 1000; [line_country]] [] c' buckets
              (Forall_nil _) E) as [_ H2].
  simpl. rewrite H2.
  change c' with (fst (fst (c', buckets, @Ok unit tt))). rewrite <- E.
  vm_compute. reflexivity.
Defined.
